(** * Token-limit resolution of [packages/api/src/utils/tokens.ts]

    A shallow embedding of the four functions with logic in the module
    ([findMatchingPattern], [getModelTokenValue], [matchModelName],
    [processModelData]) together with the part of the JavaScript runtime
    they rely on: strings, numbers (IEEE 754 binary64, as primitive floats),
    truthiness, plain objects with their own-property order and prototype,
    [parseFloat], and the shape check of the [zod] schemas.

    Strings are sequences of ASCII characters; on those
    [String.prototype.toLowerCase] and [String.prototype.includes] are the
    functions defined below. *)

From Stdlib Require Import Bool List Ascii String NArith ZArith Lia.
From Stdlib Require Import Floats.PrimFloat Floats.SpecFloat Floats.FloatOps.
Import ListNotations.

Local Open Scope string_scope.
Local Open Scope list_scope.

(** ** The JavaScript runtime *)

Module JS.

(** *** Strings *)

Definition lower_char (c : ascii) : ascii :=
  let n := N_of_ascii c in
  if ((65 <=? n) && (n <=? 90))%N then ascii_of_N (n + 32) else c.

(** [s.toLowerCase()] *)
Fixpoint toLowerCase (s : string) : string :=
  match s with
  | EmptyString => EmptyString
  | String c r => String (lower_char c) (toLowerCase r)
  end.

(** [s.includes(sub)]: [sub] occurs in [s] at some position. *)
Fixpoint includes (s sub : string) : bool :=
  if String.prefix sub s then true
  else match s with
       | EmptyString => false
       | String _ r => includes r sub
       end.

(** A string is truthy unless it is empty. *)
Definition truthy_string (s : string) : bool := negb (s =? "").

Definition digit_of (c : ascii) : option N :=
  let n := N_of_ascii c in
  if ((48 <=? n) && (n <=? 57))%N then Some (n - 48)%N else None.

Fixpoint digits_value (acc : N) (s : string) : option N :=
  match s with
  | EmptyString => Some acc
  | String c r =>
      match digit_of c with
      | Some d => digits_value (10 * acc + d)%N r
      | None => None
      end
  end.

(** A property key is an array index when it is the canonical decimal
    form of an integer below 2^32 - 1 (ECMAScript, 6.1.7). *)
Definition array_index (k : string) : option N :=
  match k with
  | EmptyString => None
  | String "0" EmptyString => Some 0%N
  | String "0" _ => None
  | _ =>
      match digits_value 0 k with
      | Some n => if (n <? 4294967295)%N then Some n else None
      | None => None
      end
  end.

Definition is_array_index (k : string) : bool :=
  match array_index k with Some _ => true | None => false end.

(** *** Numbers *)

(** A number is truthy unless it is [0], [-0] or [NaN]. *)
Definition truthy_number (n : float) : bool :=
  negb (PrimFloat.eqb n 0%float) && negb (PrimFloat.is_nan n).

Definition is_space (c : ascii) : bool :=
  match N_of_ascii c with
  | 9%N | 10%N | 11%N | 12%N | 13%N | 32%N => true
  | _ => false
  end.

Fixpoint trim_start (s : string) : string :=
  match s with
  | String c r => if is_space c then trim_start r else s
  | EmptyString => s
  end.

(** The longest run of decimal digits at the start of [s], and the rest. *)
Fixpoint take_digits (s : string) : list N * string :=
  match s with
  | String c r =>
      match digit_of c with
      | Some d => let (ds, rest) := take_digits r in (d :: ds, rest)
      | None => ([], s)
      end
  | EmptyString => ([], s)
  end.

Definition digits_to_Z (ds : list N) : Z :=
  fold_left (fun a d => 10 * a + Z.of_N d)%Z ds 0%Z.

(** The value of an [ExponentPart] at the start of [s]; [0] when [s] does
    not start with one. *)
Definition exponent_part (s : string) : Z :=
  match s with
  | String c r =>
      if ((c =? "e") || (c =? "E"))%char then
        let '(sign, r') :=
          match r with
          | String "+" t => (1%Z, t)
          | String "-" t => ((-1)%Z, t)
          | _ => (1%Z, r)
          end in
        match fst (take_digits r') with
        | [] => 0%Z
        | ds => (sign * digits_to_Z ds)%Z
        end
      else 0%Z
  | EmptyString => 0%Z
  end.

(** [m * 10^e], for [0 <= m], rounded to the nearest binary64 number,
    ties to even. *)
Definition decimal_value (neg : bool) (m e : Z) : float :=
  match m with
  | Z0 => if neg then (-0)%float else 0%float
  | Zpos p =>
      SF2Prim
        (if (0 <=? e)%Z
         then binary_normalize prec emax
                (if neg then - (m * 10 ^ e) else m * 10 ^ e)%Z 0%Z false
         else SFdiv prec emax (S754_finite neg p 0%Z)
                (S754_finite false (Z.to_pos (10 ^ (- e))) 0%Z))
  | Zneg _ => nan
  end.

(** [parseFloat(input)]: the longest prefix of the trimmed input that is a
    [StrDecimalLiteral], [NaN] when there is none. *)
Definition parseFloat (input : string) : float :=
  let s := trim_start input in
  let '(neg, s) :=
    match s with
    | String "-" r => (true, r)
    | String "+" r => (false, r)
    | _ => (false, s)
    end in
  if String.prefix "Infinity" s then (if neg then neg_infinity else infinity)
  else
    let (ip, s1) := take_digits s in
    let (fp, s2) :=
      match s1 with
      | String "." r => take_digits r
      | _ => ([], s1)
      end in
    match ip, fp with
    | [], [] => nan
    | _, _ =>
        decimal_value neg (digits_to_Z (ip ++ fp))
          (exponent_part s2 - Z.of_nat (List.length fp))
    end.

(** *** Values and objects *)

(** Modelled from the spec: the type [TokenConfig] (declared in [~/types],
    outside this file) is "a record with optional numeric fields prompt,
    completion, context, output"; an absent field is [None]. *)
Record TokenConfig : Type := mkTokenConfig {
  prompt : option float;
  completion : option float;
  context : option float;
  output : option float
}.

(** [keyof TokenConfig] *)
Inductive key : Type := Kprompt | Kcompletion | Kcontext | Koutput.

Definition key_name (k : key) : string :=
  match k with
  | Kprompt => "prompt"
  | Kcompletion => "completion"
  | Kcontext => "context"
  | Koutput => "output"
  end.

(** [c[k]] for a record [c] *)
Definition field (c : TokenConfig) (k : key) : option float :=
  match k with
  | Kprompt => prompt c
  | Kcompletion => completion c
  | Kcontext => context c
  | Koutput => output c
  end.

(** What reading a property of a token map can produce: nothing, a bare
    number, a record, or a member inherited from [Object.prototype] (a
    built-in function, or that prototype object itself), which is truthy,
    is not a number and has none of the fields of a record. *)
Inductive value : Type :=
| VUndefined
| VNumber (n : float)
| VConfig (c : TokenConfig)
| VBuiltin.

Definition truthy (v : value) : bool :=
  match v with
  | VUndefined => false
  | VNumber n => truthy_number n
  | VConfig _ | VBuiltin => true
  end.

Definition is_number (v : value) : bool :=
  match v with VNumber _ => true | _ => false end.

(** The result of reading a field of a record. *)
Definition field_value (f : option float) : value :=
  match f with Some n => VNumber n | None => VUndefined end.

(** [v?.[k]], for [v] that is not a number *)
Definition value_field (v : value) (k : key) : value :=
  match v with
  | VConfig c => field_value (field c k)
  | _ => VUndefined
  end.

(** A plain object: its own properties in the order of their creation, and
    its prototype, which is [Object.prototype] ([None]) unless an assignment
    to ["__proto__"] replaced it by a record. *)
Record object : Type := mkObject {
  own : list (string * value);
  proto : option TokenConfig
}.

(** The object literal [{}]. *)
Definition empty : object := mkObject [] None.

Fixpoint lookup (k : string) (ps : list (string * value)) : option value :=
  match ps with
  | [] => None
  | (k', v) :: r => if k =? k' then Some v else lookup k r
  end.

Fixpoint update (k : string) (v : value) (ps : list (string * value))
  : list (string * value) :=
  match ps with
  | [] => []
  | (k', v') :: r => if k =? k' then (k', v) :: r else (k', v') :: update k v r
  end.

Definition has_own (o : object) (k : string) : bool :=
  match lookup k (own o) with Some _ => true | None => false end.

(** The property names of [Object.prototype]. *)
Definition Object_prototype_names : list string :=
  [ "constructor"; "__defineGetter__"; "__defineSetter__"; "hasOwnProperty";
    "__lookupGetter__"; "__lookupSetter__"; "isPrototypeOf";
    "propertyIsEnumerable"; "toString"; "valueOf"; "__proto__";
    "toLocaleString" ].

Definition key_of_name (k : string) : option key :=
  if k =? "prompt" then Some Kprompt
  else if k =? "completion" then Some Kcompletion
  else if k =? "context" then Some Kcontext
  else if k =? "output" then Some Koutput
  else None.

(** A property that is not an own property is looked up along the prototype
    chain; ["__proto__"] is an accessor that yields the prototype itself. *)
Definition inherited (p : option TokenConfig) (k : string) : value :=
  if k =? "__proto__" then
    match p with Some c => VConfig c | None => VBuiltin end
  else
    match p, key_of_name k with
    | Some c, Some f => field_value (field c f)
    | _, _ =>
        if existsb (String.eqb k) Object_prototype_names then VBuiltin
        else VUndefined
    end.

(** [o[k]] *)
Definition get (o : object) (k : string) : value :=
  match lookup k (own o) with
  | Some v => v
  | None => inherited (proto o) k
  end.

(** [o[k] = c] for a record [c]: an own property keeps its place, the
    inherited setter of ["__proto__"] replaces the prototype, and any other
    key becomes the newest own property. *)
Definition set (o : object) (k : string) (c : TokenConfig) : object :=
  if has_own o k then mkObject (update k (VConfig c) (own o)) (proto o)
  else if k =? "__proto__" then mkObject (own o) (Some c)
  else mkObject (own o ++ [(k, VConfig c)]) (proto o).

Fixpoint insert_index (e : N * string) (l : list (N * string))
  : list (N * string) :=
  match l with
  | [] => [e]
  | e' :: r => if (fst e <=? fst e')%N then e :: l else e' :: insert_index e r
  end.

Fixpoint index_keys (ks : list string) : list (N * string) :=
  match ks with
  | [] => []
  | k :: r =>
      match array_index k with
      | Some n => insert_index (n, k) (index_keys r)
      | None => index_keys r
      end
  end.

(** The own keys in creation order. *)
Definition insertion_keys (o : object) : list string := map fst (own o).

(** [Object.keys(o)]: the array-index keys in ascending numeric order, then
    the other keys in creation order (ECMAScript, OrdinaryOwnPropertyKeys). *)
Definition Object_keys (o : object) : list string :=
  map snd (index_keys (insertion_keys o))
  ++ filter (fun k => negb (is_array_index k)) (insertion_keys o).

End JS.

Import JS.

(** ** The functions of [tokens.ts] *)

(** The value a caller passes for a parameter declared [string]: a string,
    or anything else. *)
Inductive arg : Type :=
| Str (s : string)
| NotStr.

(** The loop [for (let i = keys.length - 1; i >= 0; i--)], entered with
    [i + 1 = n]. *)
Fixpoint scan (lowerModelName : string) (keys : list string) (n : nat)
  : option string :=
  match n with
  | O => None
  | S i =>
      match nth_error keys i with
      | Some modelKey =>
          if includes lowerModelName modelKey then Some modelKey
          else scan lowerModelName keys i
      | None => scan lowerModelName keys i
      end
  end.

(** [findMatchingPattern(modelName, tokensMap)]; [None] is [null]. *)
Definition findMatchingPattern (modelName : string) (tokensMap : object)
  : option string :=
  let keys := Object_keys tokensMap in
  let lowerModelName := toLowerCase modelName in
  scan lowerModelName keys (List.length keys).

(** [getModelTokenValue(modelName, tokensMap, key)]; an absent [tokensMap]
    is [None]. *)
Definition getModelTokenValue (modelName : arg) (tokensMap : option object)
  (k : key) : value :=
  match modelName, tokensMap with
  | Str name, Some m =>
      let value := get m name in
      if is_number value then value
      else if truthy (value_field value Kcontext) then value_field value Kcontext
      else
        match findMatchingPattern name m with
        | Some matchedPattern =>
            if truthy_string matchedPattern then
              let result := get m matchedPattern in
              if is_number result then result
              else
                let tokenValue := value_field result k in
                if is_number tokenValue then tokenValue
                else get m "system_default"
            else get m "system_default"
        | None => get m "system_default"
        end
  | _, _ => VUndefined
  end.

Section BuiltinMaps.

(** [EModelEndpoint], [maxTokensMap] and [maxOutputTokensMap] are imported
    from [librechat-data-provider]; the functions below only index into
    them.  A table without an entry for the endpoint yields [None]. *)
Variable Endpoint : Type.
Variable maxTokensMap : Endpoint -> option object.
Variable maxOutputTokensMap : Endpoint -> option object.

(** [a ?? b] *)
Definition nullish {A : Type} (a b : option A) : option A :=
  match a with Some _ => a | None => b end.

Definition getModelMaxTokens (modelName : arg) (endpoint : Endpoint)
  (endpointTokenConfig : option object) : value :=
  let tokensMap := nullish endpointTokenConfig (maxTokensMap endpoint) in
  getModelTokenValue modelName tokensMap Kcontext.

Definition getModelMaxOutputTokens (modelName : arg) (endpoint : Endpoint)
  (endpointTokenConfig : option object) : value :=
  let tokensMap := nullish endpointTokenConfig (maxOutputTokensMap endpoint) in
  getModelTokenValue modelName tokensMap Koutput.

(** [matchModelName(modelName, endpoint)]; [None] is [undefined]. *)
Definition matchModelName (modelName : arg) (endpoint : Endpoint)
  : option string :=
  match modelName with
  | NotStr => None
  | Str name =>
      match maxTokensMap endpoint with
      | None => Some name
      | Some tokensMap =>
          if truthy (get tokensMap name) then Some name
          else
            match findMatchingPattern name tokensMap with
            | Some matchedPattern =>
                if truthy_string matchedPattern then Some matchedPattern
                else Some name
            | None => Some name
            end
      end
  end.

End BuiltinMaps.

Arguments getModelMaxTokens {Endpoint} maxTokensMap modelName endpoint
  endpointTokenConfig.
Arguments getModelMaxOutputTokens {Endpoint} maxOutputTokensMap modelName
  endpoint endpointTokenConfig.
Arguments matchModelName {Endpoint} maxTokensMap modelName endpoint.

(** *** The catalog *)

(** The data handed to [processModelData]: any JSON-like value. *)
#[warning="-register-all"]
Inductive data : Type :=
| DUndefined
| DNull
| DBool (b : bool)
| DNumber (n : float)
| DString (s : string)
| DArray (items : list data)
| DObject (props : list (string * data)).

Fixpoint data_lookup (k : string) (ps : list (string * data)) : option data :=
  match ps with
  | [] => None
  | (k', v) :: r => if k =? k' then Some v else data_lookup k r
  end.

(** [d[k]] for a schema key [k] *)
Definition prop (d : data) (k : string) : data :=
  match d with
  | DObject ps =>
      match data_lookup k ps with Some v => v | None => DUndefined end
  | _ => DUndefined
  end.

Record Pricing : Type := mkPricing {
  pricing_prompt : string;
  pricing_completion : string
}.

(** [z.infer<typeof modelSchema>] *)
Record Model : Type := mkModel {
  id : string;
  pricing : Pricing;
  context_length : float
}.

(** [z.string()] *)
Definition z_string (d : data) : option string :=
  match d with DString s => Some s | _ => None end.

(** [z.number()]: a number other than [NaN]. *)
Definition z_number (d : data) : option float :=
  match d with
  | DNumber n => if PrimFloat.is_nan n then None else Some n
  | _ => None
  end.

(** [z.object({ prompt: z.string(), completion: z.string() })] *)
Definition pricingSchema (d : data) : option Pricing :=
  match d with
  | DObject _ =>
      match z_string (prop d "prompt"), z_string (prop d "completion") with
      | Some p, Some c => Some (mkPricing p c)
      | _, _ => None
      end
  | _ => None
  end.

Definition modelSchema (d : data) : option Model :=
  match d with
  | DObject _ =>
      match z_string (prop d "id"), pricingSchema (prop d "pricing"),
            z_number (prop d "context_length") with
      | Some i, Some p, Some c => Some (mkModel i p c)
      | _, _, _ => None
      end
  | _ => None
  end.

(** [z.array(schema)]: every item has to parse. *)
Fixpoint z_array {A : Type} (schema : data -> option A) (items : list data)
  : option (list A) :=
  match items with
  | [] => Some []
  | d :: r =>
      match schema d, z_array schema r with
      | Some a, Some l => Some (a :: l)
      | _, _ => None
      end
  end.

(** [inputSchema.safeParse(input)]: the parsed data on success. *)
Definition inputSchema (input : data) : option (list Model) :=
  match input with
  | DObject _ =>
      match prop input "data" with
      | DArray items => z_array modelSchema items
      | _ => None
      end
  | _ => None
  end.

(** A call either returns or throws [new Error(msg)]. *)
Inductive outcome (A : Type) : Type :=
| Return (a : A)
| Throw (msg : string).

Arguments Return {A} a.
Arguments Throw {A} msg.

(** The body of the loop [for (const model of data)]. *)
Definition step (tokenConfig : object) (model : Model) : object :=
  let modelKey := id model in
  let pricing :=
    if modelKey =? "openrouter/auto" then mkPricing "0.00001" "0.00003"
    else pricing model in
  let prompt := (parseFloat (pricing_prompt pricing) * 1000000)%float in
  let completion := (parseFloat (pricing_completion pricing) * 1000000)%float in
  set tokenConfig modelKey
    (mkTokenConfig (Some prompt) (Some completion)
       (Some (context_length model)) None).

Definition processModelData (input : data) : outcome object :=
  match inputSchema input with
  | None => Throw "Invalid input data"
  | Some data => Return (fold_left step data empty)
  end.

(** ** What the specification says, in its own words *)

(** [sub] occurs in [s]. *)
Definition Substring (sub s : string) : Prop :=
  exists a b, s = (a ++ sub ++ b)%string.

(** "Enumerate tokensMap's keys in reverse insertion order ... return the
    first (i.e., last-inserted) key that matches." *)
Definition last_inserted_match (modelName : string) (tokensMap : object)
  : option string :=
  find (includes (toLowerCase modelName)) (rev (insertion_keys tokensMap)).

(** "Later entries with a duplicate id overwrite earlier ones": the entry
    that governs the id [k] is the last one carrying it. *)
Definition last_entry (k : string) (models : list Model) : option Model :=
  find (fun e => id e =? k) (rev models).

(** "Convert pricing.prompt and pricing.completion ... by parsing as
    floating point and multiplying by 1,000,000", "valued as
    { prompt, completion, context: context_length }". *)
Definition converted (e : Model) : TokenConfig :=
  mkTokenConfig
    (Some (parseFloat (pricing_prompt (pricing e)) * 1000000)%float)
    (Some (parseFloat (pricing_completion (pricing e)) * 1000000)%float)
    (Some (context_length e))
    None.

(** The record of the sentinel id: prompt 10, completion 30. *)
Definition auto_record (e : Model) : TokenConfig :=
  mkTokenConfig (Some 10%float) (Some 30%float) (Some (context_length e)) None.

(** The record the loop stores for a model. *)
Definition record_of (e : Model) : TokenConfig :=
  if id e =? "openrouter/auto" then auto_record e else converted e.

(** The CatalogEntry shape:
    [{ id: string, pricing: { prompt: string, completion: string },
       context_length: number }]. *)
Definition is_object (d : data) : Prop := exists ps, d = DObject ps.
Definition is_string (d : data) : Prop := exists s, d = DString s.
Definition is_numeric (d : data) : Prop :=
  exists n, d = DNumber n /\ PrimFloat.is_nan n = false.

Definition PricingShape (d : data) : Prop :=
  is_object d /\ is_string (prop d "prompt") /\ is_string (prop d "completion").

Definition EntryShape (d : data) : Prop :=
  is_object d /\ is_string (prop d "id") /\ PricingShape (prop d "pricing")
  /\ is_numeric (prop d "context_length").

(** The input shape: [{ data: CatalogEntry[] }]. *)
Definition CatalogShape (d : data) : Prop :=
  is_object d /\
  exists items, prop d "data" = DArray items /\ Forall EntryShape items.

(** No own key of the map is an array index. *)
Definition no_index_keys (o : object) : bool :=
  forallb (fun k => negb (is_array_index k)) (insertion_keys o).

(** The plain object [{ k1: v1, ... }] written as a literal. *)
Definition literal (ps : list (string * value)) : object := mkObject ps None.

(** ** Notions used to state further properties of the code *)

(** An ASCII upper-case letter. *)
Definition is_upper (c : ascii) : bool :=
  let n := N_of_ascii c in ((65 <=? n) && (n <=? 90))%N.

Fixpoint has_upper (s : string) : bool :=
  match s with
  | EmptyString => false
  | String c r => is_upper c || has_upper r
  end.

(** The value returned by [matchModelName], passed on as an argument. *)
Definition arg_of (r : option string) : arg :=
  match r with Some s => Str s | None => NotStr end.

(** Every own value of the map is truthy. *)
Definition truthy_values (m : object) : Prop :=
  forall k v, lookup k (own m) = Some v -> truthy v = true.

(** A [Record<string, number>] written as a literal: the prototype is
    [Object.prototype] and every own value is a number. *)
Definition numbers_only (m : object) : Prop :=
  proto m = None /\ forall k v, lookup k (own m) = Some v -> is_number v = true.

(** The number [n] is held by the map: as a bare number, as a field of one
    of its records, or as a field of the record that is its prototype. *)
Definition stored (m : object) (n : float) : Prop :=
  (exists k, In (k, VNumber n) (own m))
  \/ (exists k c f, In (k, VConfig c) (own m) /\ field c f = Some n)
  \/ (exists c f, proto m = Some c /\ field c f = Some n).

(** The distinct elements of a list, each at its first occurrence. *)
Fixpoint first_occurrences (l : list string) : list string :=
  match l with
  | [] => []
  | x :: r => x :: filter (fun y => negb (y =? x)) (first_occurrences r)
  end.

(** ** Strings *)

Lemma prefix_app (sub s : string) :
  String.prefix sub s = true <-> exists b, s = (sub ++ b)%string.
Proof.
  revert s; induction sub as [|c sub IH]; intros s; simpl.
  - destruct s; split; eauto.
  - destruct s as [|c' s].
    + split; [discriminate | intros [b H]; discriminate].
    + simpl. destruct (ascii_dec c c') as [->|Hne].
      * rewrite IH. split; intros [b H]; exists b.
        -- now rewrite H.
        -- now inversion H.
      * split; [discriminate|]. intros [b H]. inversion H. congruence.
Qed.

Lemma includes_spec (s sub : string) :
  includes s sub = true <-> Substring sub s.
Proof.
  unfold Substring. induction s as [|c r IH].
  - cbn [includes]. destruct (String.prefix sub "") eqn:Hp.
    + apply prefix_app in Hp as [b Hb]. split; auto.
      intros _. exists "", b. exact Hb.
    + split; [discriminate|]. intros (a & b & H).
      destruct a; [|discriminate]. simpl in H.
      assert (String.prefix sub "" = true) by (apply prefix_app; eauto).
      congruence.
  - cbn [includes]. destruct (String.prefix sub (String c r)) eqn:Hp.
    + apply prefix_app in Hp as [b Hb]. split; auto.
      intros _. exists "", b. exact Hb.
    + rewrite IH. split.
      * intros (a & b & H). exists (String c a), b. simpl. now rewrite H.
      * intros (a & b & H). destruct a as [|c' a].
        -- simpl in H.
           assert (String.prefix sub (String c r) = true)
             by (apply prefix_app; eauto).
           congruence.
        -- simpl in H. inversion H. eauto.
Qed.

Lemma includes_refl (s : string) : includes s s = true.
Proof.
  apply includes_spec. exists "", "". simpl.
  induction s as [|c s IH]; simpl; [reflexivity | now rewrite <- IH].
Qed.

Lemma includes_empty (s : string) : includes s "" = true.
Proof. destruct s; reflexivity. Qed.

Lemma truthy_string_iff (s : string) : truthy_string s = true <-> s <> "".
Proof.
  unfold truthy_string. destruct (String.eqb_spec s ""); simpl.
  - split; [discriminate | contradiction].
  - split; auto.
Qed.

(** ** Key enumeration and the reverse scan *)

Lemma scan_app (lower : string) (l l' : list string) (n : nat) :
  n <= List.length l -> scan lower (l ++ l') n = scan lower l n.
Proof.
  induction n as [|i IH]; intros Hn; [reflexivity|].
  cbn [scan]. rewrite nth_error_app1 by lia. rewrite IH by lia. reflexivity.
Qed.

Lemma scan_find (lower : string) (keys : list string) :
  scan lower keys (List.length keys) = find (includes lower) (rev keys).
Proof.
  induction keys as [|k l IH] using rev_ind; [reflexivity|].
  rewrite rev_unit, length_app, Nat.add_comm. cbn [List.length Nat.add scan find].
  rewrite nth_error_app2, Nat.sub_diag by lia. cbn [nth_error].
  destruct (includes lower k); [reflexivity|].
  rewrite scan_app by lia. exact IH.
Qed.

Lemma findMatchingPattern_find (modelName : string) (tokensMap : object) :
  findMatchingPattern modelName tokensMap
  = find (includes (toLowerCase modelName)) (rev (Object_keys tokensMap)).
Proof. apply scan_find. Qed.

Lemma find_rev_split {A : Type} (f : A -> bool) (l : list A) (x : A) :
  find f (rev l) = Some x <->
  exists l1 l2, l = l1 ++ x :: l2 /\ f x = true
                /\ forall y, In y l2 -> f y = false.
Proof.
  induction l as [|y l IH] using rev_ind.
  - simpl. split; [discriminate|]. intros (l1 & l2 & H & _).
    destruct l1; discriminate.
  - rewrite rev_unit. cbn [find]. destruct (f y) eqn:Hy.
    + split.
      * intros [= ->]. exists l, []. repeat split; auto. intros ? [].
      * intros (l1 & l2 & H & Hx & Hl2).
        destruct l2 as [|z l2] using rev_ind.
        -- apply app_inj_tail in H as [_ ->]. reflexivity.
        -- clear IHl2. rewrite app_comm_cons, app_assoc in H.
           apply app_inj_tail in H as [_ ->].
           rewrite Hl2 in Hy by (apply in_or_app; right; left; reflexivity).
           discriminate.
    + rewrite IH. split.
      * intros (l1 & l2 & -> & Hx & Hl2). exists l1, (l2 ++ [y]).
        rewrite <- app_assoc. repeat split; auto.
        intros z Hz. apply in_app_or in Hz as [Hz|[<-|[]]]; auto.
      * intros (l1 & l2 & H & Hx & Hl2).
        destruct l2 as [|z l2] using rev_ind.
        -- apply app_inj_tail in H as [_ ->]. congruence.
        -- clear IHl2. rewrite app_comm_cons, app_assoc in H.
           apply app_inj_tail in H as [-> ->].
           exists l1, l2. repeat split; auto.
           intros w Hw. apply Hl2, in_or_app. now left.
Qed.

Lemma In_insert_index (e x : N * string) (l : list (N * string)) :
  In x (insert_index e l) <-> x = e \/ In x l.
Proof.
  induction l as [|e' r IH]; simpl.
  - intuition.
  - destruct (fst e <=? fst e')%N; simpl; [intuition|].
    rewrite IH. intuition.
Qed.

Lemma In_index_keys (ks : list string) (n : N) (k : string) :
  In (n, k) (index_keys ks) <-> In k ks /\ array_index k = Some n.
Proof.
  induction ks as [|k' r IH]; simpl.
  - intuition.
  - destruct (array_index k') as [n'|] eqn:Hk'.
    + rewrite In_insert_index, IH. split.
      * intros [[= -> ->]|[H1 H2]]; auto.
      * intros [[->|H1] H2]; [left; congruence | auto].
    + rewrite IH. split; [intuition|].
      intros [[->|H1] H2]; [congruence | auto].
Qed.

Lemma In_Object_keys (o : object) (k : string) :
  In k (Object_keys o) <-> In k (insertion_keys o).
Proof.
  unfold Object_keys. rewrite in_app_iff, in_map_iff, filter_In.
  unfold is_array_index. split.
  - intros [([n k'] & Hk & Hin)|[Hin _]]; auto.
    simpl in Hk; subst k'. apply In_index_keys in Hin. tauto.
  - intros Hin. destruct (array_index k) as [n|] eqn:Hn.
    + left. exists (n, k). split; [reflexivity|]. apply In_index_keys. auto.
    + right. auto.
Qed.

Lemma index_keys_none (ks : list string) :
  forallb (fun k => negb (is_array_index k)) ks = true ->
  index_keys ks = [] /\ filter (fun k => negb (is_array_index k)) ks = ks.
Proof.
  induction ks as [|k r IH]; [now split|].
  cbn [forallb index_keys filter]. unfold is_array_index at 1 3.
  destruct (array_index k); [discriminate|]. simpl.
  intros H. destruct (IH H) as [H1 H2]. now rewrite H2.
Qed.

Lemma Object_keys_insertion (o : object) :
  no_index_keys o = true -> Object_keys o = insertion_keys o.
Proof.
  intros H. apply index_keys_none in H as [H1 H2].
  unfold Object_keys. now rewrite H1, H2.
Qed.

Lemma not_includes (s sub : string) :
  includes s sub = false <-> ~ Substring sub s.
Proof.
  rewrite <- includes_spec. destruct (includes s sub); split; intros H;
    try reflexivity; try discriminate; try (intros H'; discriminate).
  now elim H.
Qed.

(** ** findMatchingPattern *)

Lemma findMatchingPattern_last (modelName : string) (tokensMap : object)
  (k : string) :
  findMatchingPattern modelName tokensMap = Some k <->
  exists before after,
    Object_keys tokensMap = before ++ k :: after
    /\ Substring k (toLowerCase modelName)
    /\ forall k', In k' after -> ~ Substring k' (toLowerCase modelName).
Proof.
  rewrite findMatchingPattern_find, find_rev_split.
  split; intros (l1 & l2 & H1 & H2 & H3); exists l1, l2; repeat split; auto.
  - now apply includes_spec.
  - intros k' Hk'. apply not_includes. auto.
  - now apply includes_spec.
  - intros k' Hk'. apply not_includes. auto.
Qed.

Lemma findMatchingPattern_own (modelName : string) (tokensMap : object)
  (k : string) :
  findMatchingPattern modelName tokensMap = Some k ->
  In k (insertion_keys tokensMap).
Proof.
  rewrite findMatchingPattern_find. intros H. apply find_some in H as [H _].
  apply In_Object_keys. now apply in_rev.
Qed.

Lemma findMatchingPattern_null (modelName : string) (tokensMap : object) :
  findMatchingPattern modelName tokensMap = None <->
  forall k, In k (insertion_keys tokensMap) ->
            ~ Substring k (toLowerCase modelName).
Proof.
  rewrite findMatchingPattern_find. split.
  - intros H k Hk. apply not_includes.
    apply (find_none _ _ H). apply in_rev. rewrite rev_involutive.
    now apply In_Object_keys.
  - intros H. destruct (find _ _) as [k|] eqn:Hf; [|reflexivity].
    apply find_some in Hf as [Hin Hk]. apply in_rev, In_Object_keys in Hin.
    apply includes_spec in Hk. now elim (H k Hin).
Qed.

(** C1, as the code has it.  [findMatchingPattern] returns the last key of
    [Object.keys(tokensMap)] that occurs in the lowercased model name: the
    returned key is an own key of the map, it is a substring of the
    lowercased name, and no key enumerated after it is one.  It returns
    [null] exactly when no key of the map occurs in the lowercased name, in
    particular on the empty map.  When no key of the map is an array index,
    the enumeration order is the insertion order and the returned key is the
    last-inserted matching key. *)
Theorem findMatchingPattern_spec (modelName : string) (tokensMap : object) :
  let lower := toLowerCase modelName in
  (forall k, findMatchingPattern modelName tokensMap = Some k <->
     exists before after,
       Object_keys tokensMap = before ++ k :: after
       /\ Substring k lower
       /\ forall k', In k' after -> ~ Substring k' lower)
  /\ (forall k, findMatchingPattern modelName tokensMap = Some k ->
        In k (insertion_keys tokensMap))
  /\ (findMatchingPattern modelName tokensMap = None <->
        forall k, In k (insertion_keys tokensMap) -> ~ Substring k lower)
  /\ (no_index_keys tokensMap = true ->
        findMatchingPattern modelName tokensMap
        = last_inserted_match modelName tokensMap)
  /\ findMatchingPattern modelName empty = None.
Proof.
  intros lower. split; [|split; [|split; [|split]]].
  - apply findMatchingPattern_last.
  - apply findMatchingPattern_own.
  - apply findMatchingPattern_null.
  - intros H. rewrite findMatchingPattern_find. unfold last_inserted_match.
    now rewrite (Object_keys_insertion _ H).
  - reflexivity.
Qed.

(** The last conjuncts of [findMatchingPattern_spec] at a map without
    array-index keys: the more specific key, inserted later, wins. *)
Lemma findMatchingPattern_spec_witness :
  let m := literal [("gpt-4", VNumber 8187%float);
                    ("gpt-4-32k", VNumber 32755%float);
                    ("claude", VNumber 100000%float)] in
  no_index_keys m = true
  /\ findMatchingPattern "GPT-4-32k-0613" m = last_inserted_match "GPT-4-32k-0613" m
  /\ last_inserted_match "GPT-4-32k-0613" m = Some "gpt-4-32k".
Proof.
  intros m. split; [reflexivity|]. split; [|reflexivity].
  apply (findMatchingPattern_spec "GPT-4-32k-0613" m). reflexivity.
Defined.

(** C1 as stated fails on a map with an array-index key: in
    [{ gpt: 1, 4: 2 }] the key ["4"] is inserted last and occurs in
    ["gpt-4"], but [Object.keys] enumerates it first, so the reverse scan
    meets ["gpt"] before it. *)
Lemma findMatchingPattern_insertion_order_counterexample :
  let m := literal [("gpt", VNumber 1%float); ("4", VNumber 2%float)] in
  insertion_keys m = ["gpt"; "4"]
  /\ Object_keys m = ["4"; "gpt"]
  /\ last_inserted_match "gpt-4" m = Some "4"
  /\ findMatchingPattern "gpt-4" m = Some "gpt"
  /\ findMatchingPattern "gpt-4" m <> last_inserted_match "gpt-4" m.
Proof.
  intros m. repeat split; try reflexivity.
  vm_compute. discriminate.
Qed.

(** ** Property reads *)

Lemma get_own (o : object) (k : string) (v : value) :
  lookup k (own o) = Some v -> get o k = v.
Proof. unfold get. now intros ->. Qed.

Lemma get_system_default_absent (o : object) :
  has_own o "system_default" = false -> get o "system_default" = VUndefined.
Proof.
  unfold has_own, get. destruct (lookup _ _); [discriminate|].
  intros _. unfold inherited. cbn [String.eqb Ascii.eqb Bool.eqb].
  destruct (proto o); reflexivity.
Qed.

Lemma In_lookup (k : string) (ps : list (string * value)) :
  In k (map fst ps) <-> exists v, lookup k ps = Some v.
Proof.
  induction ps as [|[k' v'] r IH]; cbn [map fst In lookup].
  - split; [intros [] | intros [v H]; discriminate].
  - destruct (String.eqb_spec k k') as [->|Hne].
    + split; eauto.
    + rewrite <- IH. split; [intros [H|H]; congruence | auto].
Qed.

Lemma get_empty (k : string) :
  get empty k = VUndefined \/ get empty k = VBuiltin.
Proof.
  unfold get, inherited. cbn [empty own proto lookup].
  destruct (k =? "__proto__"); [now right|].
  destruct (existsb _ _); auto.
Qed.

(** Two numbers that [==] tells apart are different. *)
Lemma VNumber_neq (x y : float) :
  PrimFloat.eqb x x = true -> PrimFloat.eqb x y = false ->
  VNumber x <> VNumber y.
Proof. intros Hx Hxy [= E]. rewrite <- E in Hxy. congruence. Qed.

(** ** getModelTokenValue *)

Lemma exact_context (name : string) (m : object) (c : TokenConfig)
  (n : float) (k : key) :
  get m name = VConfig c ->
  context c = Some n ->
  truthy_number n = true ->
  getModelTokenValue (Str name) (Some m) k = VNumber n.
Proof.
  intros Hg Hc Ht. unfold getModelTokenValue. cbv zeta.
  rewrite Hg. cbn [is_number value_field field].
  rewrite Hc. cbn [field_value truthy]. now rewrite Ht.
Qed.

(** C2, as the code has it.  When the model name is an own key of the map
    whose value is a record with a truthy [context] (a number other than
    [0], [-0] and [NaN]), the call returns that [context], whichever field
    was requested. *)
Theorem getModelTokenValue_exact_context
  (name : string) (m : object) (c : TokenConfig) (n : float) (k : key) :
  lookup name (own m) = Some (VConfig c) ->
  context c = Some n ->
  truthy_number n = true ->
  getModelTokenValue (Str name) (Some m) k = VNumber n.
Proof.
  intros Hl. apply exact_context. now apply get_own.
Qed.

Lemma getModelTokenValue_exact_context_witness :
  let c := mkTokenConfig (Some 2%float) (Some 4%float) (Some 8192%float) None in
  let m := literal [("m1", VConfig c)] in
  lookup "m1" (own m) = Some (VConfig c)
  /\ context c = Some 8192%float
  /\ truthy_number 8192%float = true
  /\ getModelTokenValue (Str "m1") (Some m) Kprompt = VNumber 8192%float.
Proof.
  intros c m. do 3 (split; [reflexivity|]).
  apply (getModelTokenValue_exact_context "m1" m c 8192%float Kprompt);
    reflexivity.
Defined.

(** C2 as stated fails when the populated [context] is [0]: the test
    [value?.context] is a truthiness test, so the record is passed over and
    the pattern path answers with the requested field. *)
Lemma getModelTokenValue_zero_context_counterexample :
  let c := mkTokenConfig (Some 5%float) None (Some 0%float) None in
  let m := literal [("m1", VConfig c)] in
  lookup "m1" (own m) = Some (VConfig c)
  /\ context c = Some 0%float
  /\ getModelTokenValue (Str "m1") (Some m) Kprompt = VNumber 5%float
  /\ getModelTokenValue (Str "m1") (Some m) Kprompt <> VNumber 0%float.
Proof.
  intros c m. do 3 (split; [reflexivity|]).
  vm_compute. apply VNumber_neq; reflexivity.
Qed.

(** C5.  The function is total: every call returns a value.  It returns
    [undefined] when [modelName] is not a string or the map is absent.  When
    the exact entry yields nothing (it is not a number and has no truthy
    [context]) and the pattern match yields nothing (no key matches, the
    matched key is the empty string, or the matched entry is neither a
    number nor a record with a number at the requested field), it returns
    [tokensMap.system_default], which is [undefined] when the map has no
    such key; on the empty map it returns [undefined] for every name. *)
Theorem getModelTokenValue_fallback :
  (forall tokensMap k, getModelTokenValue NotStr tokensMap k = VUndefined)
  /\ (forall modelName k, getModelTokenValue modelName None k = VUndefined)
  /\ (forall name m k,
        is_number (get m name) = false ->
        truthy (value_field (get m name) Kcontext) = false ->
        (forall p, findMatchingPattern name m = Some p -> p <> "" ->
           is_number (get m p) = false
           /\ is_number (value_field (get m p) k) = false) ->
        getModelTokenValue (Str name) (Some m) k = get m "system_default")
  /\ (forall m, has_own m "system_default" = false ->
        get m "system_default" = VUndefined)
  /\ (forall name k, getModelTokenValue (Str name) (Some empty) k = VUndefined).
Proof.
  split; [reflexivity|]. split; [now intros [|]|].
  split; [|split].
  - intros name m k Hn Hc Hp. unfold getModelTokenValue. cbv zeta.
    rewrite Hn, Hc. destruct (findMatchingPattern name m) as [p|]; [|reflexivity].
    destruct (truthy_string p) eqn:Hs; [|reflexivity].
    apply truthy_string_iff in Hs. destruct (Hp p eq_refl Hs) as [-> ->].
    reflexivity.
  - exact get_system_default_absent.
  - intros name k. unfold getModelTokenValue. cbv zeta.
    destruct (get_empty name) as [-> | ->]; reflexivity.
Qed.

Lemma getModelTokenValue_fallback_witness :
  let m := literal [("gpt-4", VConfig (mkTokenConfig None None (Some 8187%float) None));
                    ("system_default", VNumber 4096%float)] in
  getModelTokenValue (Str "gpt-4-turbo") (Some m) Koutput = get m "system_default"
  /\ get m "system_default" = VNumber 4096%float.
Proof.
  intros m. split; [|reflexivity].
  apply getModelTokenValue_fallback; try reflexivity.
  intros p Hp _. vm_compute in Hp. injection Hp as <-. split; reflexivity.
Defined.

(** C5 as stated fails when the exact entry is a record with a truthy
    [context] and the requested field is another one: in
    [{ m1: { context: 8192 }, system_default: 4096 }] neither the exact
    entry nor the matched entry (the same key) has a number at [output],
    yet the call returns the context 8192 (lines 69-70), not
    [system_default]. *)
Lemma getModelTokenValue_fallback_counterexample :
  let c := mkTokenConfig None None (Some 8192%float) None in
  let m := literal [("m1", VConfig c); ("system_default", VNumber 4096%float)] in
  get m "m1" = VConfig c
  /\ is_number (get m "m1") = false
  /\ value_field (get m "m1") Koutput = VUndefined
  /\ findMatchingPattern "m1" m = Some "m1"
  /\ get m "system_default" = VNumber 4096%float
  /\ getModelTokenValue (Str "m1") (Some m) Koutput = VNumber 8192%float
  /\ getModelTokenValue (Str "m1") (Some m) Koutput <> get m "system_default".
Proof.
  intros c m. do 6 (split; [reflexivity|]).
  vm_compute. apply VNumber_neq; reflexivity.
Qed.

(** The pattern path of [getModelTokenValue] (lines 73-88), read off the
    matched key. *)
Lemma getModelTokenValue_pattern (name : string) (m : object) (k : key) :
  is_number (get m name) = false ->
  truthy (value_field (get m name) Kcontext) = false ->
  (forall p, findMatchingPattern name m = Some p -> p <> "" ->
     (forall n, get m p = VNumber n ->
        getModelTokenValue (Str name) (Some m) k = VNumber n)
     /\ (forall r n, get m p = VConfig r -> field r k = Some n ->
           getModelTokenValue (Str name) (Some m) k = VNumber n)
     /\ (forall r, get m p = VConfig r -> field r k = None ->
           getModelTokenValue (Str name) (Some m) k = get m "system_default"))
  /\ (findMatchingPattern name m = None \/ findMatchingPattern name m = Some "" ->
        getModelTokenValue (Str name) (Some m) k = get m "system_default").
Proof.
  intros Hn Hc. unfold getModelTokenValue. cbv zeta. rewrite Hn, Hc. split.
  - intros p -> Hp. apply truthy_string_iff in Hp. rewrite Hp.
    repeat split.
    + now intros n ->.
    + intros r n -> Hr. cbn [is_number value_field]. now rewrite Hr.
    + intros r -> Hr. cbn [is_number value_field]. now rewrite Hr.
  - intros [-> | ->]; reflexivity.
Qed.

(** C9.  When the model name is an own key whose record has no truthy
    [context], the exact match does not answer: the result is the one of the
    pattern path.  With a non-empty matched key [p], a bare number at [p] is
    returned as it is, a record at [p] gives its number at the requested
    field, and [system_default] when it has none there; without a match
    [system_default] is returned.  When the matched key is the model name
    itself, the requested field of the exact record is returned this way.
    A lowercase name always matches at least itself. *)
Theorem getModelTokenValue_exact_without_context
  (name : string) (m : object) (c : TokenConfig) (k : key) :
  lookup name (own m) = Some (VConfig c) ->
  truthy (field_value (context c)) = false ->
  (forall p, findMatchingPattern name m = Some p -> p <> "" ->
     (forall n, get m p = VNumber n ->
        getModelTokenValue (Str name) (Some m) k = VNumber n)
     /\ (forall r n, get m p = VConfig r -> field r k = Some n ->
           getModelTokenValue (Str name) (Some m) k = VNumber n)
     /\ (forall r, get m p = VConfig r -> field r k = None ->
           getModelTokenValue (Str name) (Some m) k = get m "system_default"))
  /\ (findMatchingPattern name m = None \/ findMatchingPattern name m = Some "" ->
        getModelTokenValue (Str name) (Some m) k = get m "system_default")
  /\ (findMatchingPattern name m = Some name -> name <> "" ->
        getModelTokenValue (Str name) (Some m) k
        = match field c k with
          | Some n => VNumber n
          | None => get m "system_default"
          end)
  /\ (toLowerCase name = name -> findMatchingPattern name m <> None).
Proof.
  intros Hl Hc.
  assert (Hg : get m name = VConfig c) by now apply get_own.
  assert (Hn : is_number (get m name) = false) by now rewrite Hg.
  assert (Hx : truthy (value_field (get m name) Kcontext) = false)
    by now rewrite Hg.
  destruct (getModelTokenValue_pattern name m k Hn Hx) as [H1 H2].
  split; [exact H1|]. split; [exact H2|]. split.
  - intros Hp Hne. destruct (H1 name Hp Hne) as (_ & Hsome & Hnone).
    destruct (field c k) as [n|] eqn:Hf; eauto.
  - intros Hlow Hnone. rewrite findMatchingPattern_find in Hnone.
    assert (Hin : In name (rev (Object_keys m))).
    { apply -> in_rev. apply In_Object_keys, In_lookup. eauto. }
    apply (find_none _ _ Hnone) in Hin.
    rewrite Hlow, includes_refl in Hin. discriminate.
Qed.

Lemma getModelTokenValue_exact_without_context_witness :
  let c := mkTokenConfig (Some 5%float) None None None in
  let m := literal [("m", VNumber 7%float); ("m1", VConfig c);
                    ("system_default", VNumber 4096%float)] in
  lookup "m1" (own m) = Some (VConfig c)
  /\ truthy (field_value (context c)) = false
  /\ findMatchingPattern "m1" m = Some "m1"
  /\ getModelTokenValue (Str "m1") (Some m) Kprompt = VNumber 5%float
  /\ getModelTokenValue (Str "m1") (Some m) Kcompletion = VNumber 4096%float.
Proof.
  intros c m. do 3 (split; [reflexivity|]). split.
  - apply (getModelTokenValue_exact_without_context "m1" m c Kprompt);
      [reflexivity | reflexivity | reflexivity | discriminate].
  - apply (getModelTokenValue_exact_without_context "m1" m c Kcompletion);
      [reflexivity | reflexivity | reflexivity | discriminate].
Defined.

(** C10.  [system_default] is a key like any other for the scan: when it is
    an own key of the map and occurs in the lowercased model name, the scan
    never returns [null], and it returns ["system_default"] itself when no
    key enumerated after it occurs in the name.  [getModelTokenValue] then
    answers on the pattern path, as long as the exact entry yields nothing:
    a bare number under [system_default] is returned as the matched entry,
    and a record there gives its number at the requested field. *)
Theorem system_default_is_a_pattern (name : string) (m : object) :
  In "system_default" (insertion_keys m) ->
  Substring "system_default" (toLowerCase name) ->
  findMatchingPattern name m <> None
  /\ (forall before after,
        Object_keys m = before ++ "system_default" :: after ->
        (forall k', In k' after -> ~ Substring k' (toLowerCase name)) ->
        findMatchingPattern name m = Some "system_default"
        /\ forall k,
             is_number (get m name) = false ->
             truthy (value_field (get m name) Kcontext) = false ->
             (forall n, get m "system_default" = VNumber n ->
                getModelTokenValue (Str name) (Some m) k = VNumber n)
             /\ (forall r n, get m "system_default" = VConfig r ->
                   field r k = Some n ->
                   getModelTokenValue (Str name) (Some m) k = VNumber n)).
Proof.
  intros Hin Hsub. split.
  - intros Hnone. rewrite findMatchingPattern_null in Hnone.
    exact (Hnone _ Hin Hsub).
  - intros before after Hkeys Hafter.
    assert (Hp : findMatchingPattern name m = Some "system_default").
    { apply findMatchingPattern_last. exists before, after. auto. }
    split; [exact Hp|]. intros k Hn Hc.
    destruct (getModelTokenValue_pattern name m k Hn Hc) as [H _].
    assert (Hne : "system_default" <> "") by discriminate.
    destruct (H _ Hp Hne) as (H1 & H2 & _). split; [exact H1 | exact H2].
Qed.

Lemma system_default_is_a_pattern_witness :
  let m := literal [("gpt-4", VNumber 8187%float);
                    ("system_default", VNumber 4096%float)] in
  let name := "My-System_Default-model" in
  In "system_default" (insertion_keys m)
  /\ Substring "system_default" (toLowerCase name)
  /\ findMatchingPattern name m = Some "system_default"
  /\ getModelTokenValue (Str name) (Some m) Koutput = VNumber 4096%float.
Proof.
  intros m name.
  assert (Hin : In "system_default" (insertion_keys m))
    by (right; left; reflexivity).
  assert (Hsub : Substring "system_default" (toLowerCase name))
    by (exists "my-", "-model"; reflexivity).
  destruct (system_default_is_a_pattern name m Hin Hsub) as [_ H].
  destruct (H ["gpt-4"] [] eq_refl (fun _ F => match F with end)) as [Hp Hv].
  destruct (Hv Koutput eq_refl eq_refl) as [Hnum _].
  split; [exact Hin|]. split; [exact Hsub|]. split; [exact Hp|].
  exact (Hnum 4096%float eq_refl).
Defined.

(** A record under [system_default] tells the two paths apart: the pattern
    path answers with the requested field of the record, where the terminal
    fallback would have returned the record itself. *)
Example system_default_record_on_pattern_path :
  let r := mkTokenConfig None None (Some 7%float) None in
  let m := literal [("system_default", VConfig r)] in
  getModelTokenValue (Str "x-system_default") (Some m) Kcontext = VNumber 7%float
  /\ get m "system_default" = VConfig r.
Proof. split; reflexivity. Qed.

(** ** matchModelName *)

(** C4, as the code has it.  [matchModelName] returns [undefined] for a
    non-string name; the name itself when the endpoint has no built-in map,
    or when [tokensMap[modelName]] is truthy, which for an own key means a
    value other than [0] and [NaN]; otherwise the key found by
    [findMatchingPattern] when that key is not the empty string, and the
    name itself when nothing matches or the matched key is empty. *)
Theorem matchModelName_spec (Endpoint : Type)
  (maxTokensMap : Endpoint -> option object) (endpoint : Endpoint) :
  matchModelName maxTokensMap NotStr endpoint = None
  /\ forall name,
       (maxTokensMap endpoint = None ->
        matchModelName maxTokensMap (Str name) endpoint = Some name)
       /\ forall m, maxTokensMap endpoint = Some m ->
            (truthy (get m name) = true ->
             matchModelName maxTokensMap (Str name) endpoint = Some name)
            /\ (forall v, lookup name (own m) = Some v -> truthy v = true ->
                  matchModelName maxTokensMap (Str name) endpoint = Some name)
            /\ (truthy (get m name) = false ->
                  (forall p, findMatchingPattern name m = Some p -> p <> "" ->
                     matchModelName maxTokensMap (Str name) endpoint = Some p)
                  /\ (findMatchingPattern name m = None
                       \/ findMatchingPattern name m = Some "" ->
                       matchModelName maxTokensMap (Str name) endpoint
                       = Some name)).
Proof.
  split; [reflexivity|]. intros name. unfold matchModelName. split.
  - now intros ->.
  - intros m ->. split; [now intros ->|]. split.
    + intros v Hl Hv. now rewrite (get_own _ _ _ Hl), Hv.
    + intros ->. split.
      * intros p -> Hp. apply truthy_string_iff in Hp. now rewrite Hp.
      * intros [-> | ->]; reflexivity.
Qed.

Lemma matchModelName_spec_witness :
  let m := literal [("gpt-4", VNumber 8187%float);
                    ("gpt-4-32k", VNumber 32755%float)] in
  let table := fun _ : unit => Some m in
  truthy (get m "gpt-4-32k-unknown") = false
  /\ findMatchingPattern "gpt-4-32k-unknown" m = Some "gpt-4-32k"
  /\ matchModelName table (Str "gpt-4-32k-unknown") tt = Some "gpt-4-32k"
  /\ findMatchingPattern "unknown-model" m = None
  /\ matchModelName table (Str "unknown-model") tt = Some "unknown-model"
  /\ matchModelName table (Str "gpt-4") tt = Some "gpt-4".
Proof.
  intros m table.
  destruct (matchModelName_spec unit table tt) as [_ H].
  do 2 (split; [reflexivity|]). split; [|split; [reflexivity|split]].
  - destruct (H "gpt-4-32k-unknown") as [_ Hm].
    destruct (Hm m eq_refl) as (_ & _ & Hf).
    destruct (Hf eq_refl) as [Hp _]. apply Hp; [reflexivity | discriminate].
  - destruct (H "unknown-model") as [_ Hm].
    destruct (Hm m eq_refl) as (_ & _ & Hf).
    destruct (Hf eq_refl) as [_ Hn]. apply Hn. now left.
  - destruct (H "gpt-4") as [_ Hm].
    destruct (Hm m eq_refl) as (Ht & _ & _). apply Ht. reflexivity.
Defined.

(** C4 as stated fails for a key that holds [0]: the test
    [if (tokensMap[modelName])] is a truthiness test, so the exact key is
    passed over and the reverse scan answers with another key. *)
Lemma matchModelName_zero_key_counterexample :
  let m := literal [("gpt-4", VNumber 0%float); ("gpt", VNumber 8187%float)] in
  let table := fun _ : unit => Some m in
  lookup "gpt-4" (own m) = Some (VNumber 0%float)
  /\ matchModelName table (Str "gpt-4") tt = Some "gpt"
  /\ matchModelName table (Str "gpt-4") tt <> Some "gpt-4".
Proof.
  intros m table. do 2 (split; [reflexivity|]). vm_compute. discriminate.
Qed.

(** ** Property writes *)

Lemma lookup_app (k : string) (ps qs : list (string * value)) :
  lookup k (ps ++ qs)
  = match lookup k ps with Some v => Some v | None => lookup k qs end.
Proof.
  induction ps as [|[k' v'] r IH]; cbn [app lookup]; [reflexivity|].
  destruct (k =? k'); [reflexivity | exact IH].
Qed.

Lemma lookup_update (k k' : string) (v : value) (ps : list (string * value)) :
  lookup k (update k' v ps)
  = if k =? k'
    then match lookup k ps with Some _ => Some v | None => None end
    else lookup k ps.
Proof.
  induction ps as [|[k0 v0] r IH]; cbn [update lookup].
  - now destruct (k =? k').
  - destruct (String.eqb_spec k' k0) as [->|Hne]; cbn [lookup].
    + destruct (String.eqb_spec k k0) as [->|Hk]; reflexivity.
    + destruct (String.eqb_spec k k0) as [->|Hk].
      * apply String.eqb_neq in Hne. rewrite String.eqb_sym in Hne.
        now rewrite Hne.
      * exact IH.
Qed.

Lemma map_fst_update (k : string) (v : value) (ps : list (string * value)) :
  map fst (update k v ps) = map fst ps.
Proof.
  induction ps as [|[k0 v0] r IH]; cbn [update map]; [reflexivity|].
  destruct (k =? k0); cbn [map fst]; [reflexivity | now rewrite IH].
Qed.

Lemma In_update (k k' : string) (v v' : value) (ps : list (string * value)) :
  In (k', v') (update k v ps) -> In (k', v') ps \/ (k' = k /\ v' = v).
Proof.
  induction ps as [|[k0 v0] r IH]; cbn [update]; [intros []|].
  destruct (String.eqb_spec k k0) as [->|Hne]; cbn [In].
  - intros [[= <- <-]|H]; auto.
  - intros [H|H]; auto. destruct (IH H); auto.
Qed.

Lemma own_set_other (o : object) (k k' : string) (c : TokenConfig) :
  k <> k' -> lookup k (own (set o k' c)) = lookup k (own o).
Proof.
  intros Hne. apply String.eqb_neq in Hne. unfold set.
  destruct (has_own o k'); cbn [own].
  - now rewrite lookup_update, Hne.
  - destruct (k' =? "__proto__"); cbn [own]; [reflexivity|].
    rewrite lookup_app. cbn [lookup]. rewrite Hne. now destruct (lookup k (own o)).
Qed.

Lemma own_set_same (o : object) (k : string) (c : TokenConfig) :
  k <> "__proto__" -> lookup k (own (set o k c)) = Some (VConfig c).
Proof.
  intros Hne. apply String.eqb_neq in Hne. unfold set, has_own.
  destruct (lookup k (own o)) eqn:Hl; cbn [own].
  - now rewrite lookup_update, String.eqb_refl, Hl.
  - rewrite Hne. cbn [own]. rewrite lookup_app, Hl. cbn [lookup].
    now rewrite String.eqb_refl.
Qed.

Lemma set_proto (o : object) (c : TokenConfig) :
  has_own o "__proto__" = false ->
  set o "__proto__" c = mkObject (own o) (Some c).
Proof. unfold set. now intros ->. Qed.

Lemma In_own_set (o : object) (k k' : string) (c : TokenConfig) (v : value) :
  In (k', v) (own (set o k c)) ->
  In (k', v) (own o) \/ (k' = k /\ v = VConfig c).
Proof.
  unfold set. destruct (has_own o k); cbn [own].
  - apply In_update.
  - destruct (k =? "__proto__"); cbn [own]; [auto|].
    intros H. apply in_app_or in H as [H|[[= <- <-]|[]]]; auto.
Qed.

Lemma NoDup_keys_set (o : object) (k : string) (c : TokenConfig) :
  NoDup (insertion_keys o) -> NoDup (insertion_keys (set o k c)).
Proof.
  unfold insertion_keys, set, has_own.
  destruct (lookup k (own o)) eqn:Hl; cbn [own].
  - now rewrite map_fst_update.
  - destruct (k =? "__proto__"); cbn [own]; [auto|].
    intros Hnd. rewrite map_app. cbn [map fst].
    apply NoDup_app; repeat split; auto.
    + constructor; [intros [] | constructor].
    + intros x Hx [<-|[]]. apply In_lookup in Hx as [v Hv]. congruence.
Qed.

(** ** processModelData *)

Lemma step_set (o : object) (e : Model) :
  step o e = set o (id e) (record_of e).
Proof.
  unfold step, record_of. cbv zeta.
  destruct (id e =? "openrouter/auto"); [|reflexivity].
  f_equal.
Qed.

Lemma last_entry_snoc (k : string) (l : list Model) (x : Model) :
  last_entry k (l ++ [x]) = if id x =? k then Some x else last_entry k l.
Proof. unfold last_entry. now rewrite rev_unit. Qed.

Lemma last_entry_some (k : string) (l : list Model) (e : Model) :
  last_entry k l = Some e -> In e l /\ id e = k.
Proof.
  intros H. apply find_some in H as [H1 H2]. split.
  - now apply in_rev.
  - now apply String.eqb_eq.
Qed.

Lemma last_entry_exists (l : list Model) (e : Model) :
  In e l -> exists e', last_entry (id e) l = Some e'.
Proof.
  intros Hin. unfold last_entry.
  destruct (find _ _) as [e'|] eqn:Hf; [eauto|].
  apply in_rev in Hin. apply (find_none _ _ Hf) in Hin.
  now rewrite String.eqb_refl in Hin.
Qed.

Lemma fold_step_snoc (l : list Model) (x : Model) (o : object) :
  fold_left step (l ++ [x]) o
  = set (fold_left step l o) (id x) (record_of x).
Proof. rewrite fold_left_app. cbn [fold_left]. apply step_set. Qed.

(** An id other than ["__proto__"] becomes an own key holding the record of
    the last entry that carries it. *)
Lemma fold_own (k : string) (models : list Model) (o : object) (e : Model) :
  k <> "__proto__" ->
  last_entry k models = Some e ->
  lookup k (own (fold_left step models o)) = Some (VConfig (record_of e)).
Proof.
  intros Hk. induction models as [|x l IH] using rev_ind; [discriminate|].
  rewrite last_entry_snoc, fold_step_snoc.
  destruct (String.eqb_spec (id x) k) as [<-|Hne].
  - intros [= <-]. now apply own_set_same.
  - intros H. rewrite own_set_other by congruence. auto.
Qed.

(** ["__proto__"] never becomes an own key. *)
Lemma fold_no_own_proto (models : list Model) (o : object) :
  has_own o "__proto__" = false ->
  has_own (fold_left step models o) "__proto__" = false.
Proof.
  intros Ho. induction models as [|x l IH] using rev_ind; [exact Ho|].
  rewrite fold_step_snoc.
  destruct (String.eqb_spec (id x) "__proto__") as [->|Hne].
  - now rewrite set_proto.
  - unfold has_own in *. rewrite own_set_other by congruence. exact IH.
Qed.

(** The last entry with the id ["__proto__"] becomes the prototype. *)
Lemma fold_proto (models : list Model) (o : object) (e : Model) :
  has_own o "__proto__" = false ->
  last_entry "__proto__" models = Some e ->
  proto (fold_left step models o) = Some (record_of e).
Proof.
  intros Ho. induction models as [|x l IH] using rev_ind; [discriminate|].
  rewrite last_entry_snoc, fold_step_snoc.
  destruct (String.eqb_spec (id x) "__proto__") as [Heq|Hne].
  - intros [= <-]. rewrite Heq, set_proto by now apply fold_no_own_proto.
    reflexivity.
  - intros H. rewrite <- (IH H). unfold set.
    apply String.eqb_neq in Hne. rewrite Hne.
    now destruct (has_own (fold_left step l o) (id x)).
Qed.

(** Reading the output at an id of the input gives the record of the last
    entry with that id. *)
Lemma fold_get (k : string) (models : list Model) (e : Model) :
  last_entry k models = Some e ->
  get (fold_left step models empty) k = VConfig (record_of e).
Proof.
  intros H. destruct (String.eqb_spec k "__proto__") as [->|Hne].
  - unfold get.
    pose proof (fold_no_own_proto models empty eq_refl) as Hown.
    unfold has_own in Hown. destruct (lookup _ _); [discriminate|].
    now rewrite (fold_proto models empty e eq_refl H).
  - apply get_own. now apply fold_own.
Qed.

Lemma fold_own_In (models : list Model) (o : object) (k : string) (v : value) :
  In (k, v) (own (fold_left step models o)) ->
  In (k, v) (own o)
  \/ exists e, In e models /\ id e = k /\ v = VConfig (record_of e).
Proof.
  induction models as [|x l IH] using rev_ind; [auto|].
  rewrite fold_step_snoc. intros H.
  apply In_own_set in H as [H|[-> ->]].
  - destruct (IH H) as [H'|(e & He & Hid & Hv)]; auto.
    right. exists e. split; auto. apply in_or_app. now left.
  - right. exists x. split; auto. apply in_or_app. right. now left.
Qed.

Lemma fold_NoDup (models : list Model) (o : object) :
  NoDup (insertion_keys o) ->
  NoDup (insertion_keys (fold_left step models o)).
Proof.
  intros Ho. induction models as [|x l IH] using rev_ind; [exact Ho|].
  rewrite fold_step_snoc. now apply NoDup_keys_set.
Qed.

Lemma context_record_of (e : Model) :
  context (record_of e) = Some (context_length e).
Proof. unfold record_of. now destruct (id e =? "openrouter/auto"). Qed.

Lemma processModelData_valid (input : data) (models : list Model) :
  inputSchema input = Some models ->
  processModelData input = Return (fold_left step models empty).
Proof. unfold processModelData. now intros ->. Qed.

(** C3, as the code has it.  On the map built from a valid catalog, a
    lookup by an id of the input returns the [context_length] of the last
    entry with that id, for every requested field: the exact match answers
    with [context] also when [prompt] or [completion] is asked for.  This
    needs a truthy [context_length] (not [0]). *)
Theorem processModelData_lookup_context
  (input : data) (models : list Model) (k : string) (e : Model) :
  inputSchema input = Some models ->
  last_entry k models = Some e ->
  truthy_number (context_length e) = true ->
  exists out,
    processModelData input = Return out
    /\ forall f, getModelTokenValue (Str k) (Some out) f
                 = VNumber (context_length e).
Proof.
  intros Hin He Ht. exists (fold_left step models empty).
  split; [now apply processModelData_valid|]. intros f.
  apply (exact_context k _ (record_of e)); auto.
  - now apply fold_get.
  - apply context_record_of.
Qed.

Lemma processModelData_lookup_context_witness :
  let e := mkModel "m1" (mkPricing "0.000002" "0.000004") 8192%float in
  let input :=
    DObject [("data", DArray [DObject [
      ("id", DString "m1");
      ("pricing", DObject [("prompt", DString "0.000002");
                           ("completion", DString "0.000004")]);
      ("context_length", DNumber 8192%float)]])] in
  inputSchema input = Some [e]
  /\ last_entry "m1" [e] = Some e
  /\ truthy_number (context_length e) = true
  /\ exists out,
       processModelData input = Return out
       /\ forall f, getModelTokenValue (Str "m1") (Some out) f
                    = VNumber 8192%float.
Proof.
  intros e input. do 3 (split; [reflexivity|]).
  apply (processModelData_lookup_context input [e] "m1" e); reflexivity.
Defined.

(** C3 as stated fails for the fields [prompt] and [completion]: on the
    catalog of the specification's own example the lookup of ["m1"] with the
    field [prompt] returns the context 8192, not the normalized prompt 2. *)
Lemma processModelData_round_trip_counterexample :
  let input :=
    DObject [("data", DArray [DObject [
      ("id", DString "m1");
      ("pricing", DObject [("prompt", DString "0.000002");
                           ("completion", DString "0.000004")]);
      ("context_length", DNumber 8192%float)]])] in
  let out := literal [("m1", VConfig (mkTokenConfig (Some 2%float)
                                        (Some 4%float) (Some 8192%float) None))] in
  processModelData input = Return out
  /\ getModelTokenValue (Str "m1") (Some out) Kprompt = VNumber 8192%float
  /\ getModelTokenValue (Str "m1") (Some out) Kprompt <> VNumber 2%float
  /\ getModelTokenValue (Str "m1") (Some out) Kcompletion <> VNumber 4%float.
Proof.
  intros input out. do 2 (split; [reflexivity|]).
  split; vm_compute; apply VNumber_neq; reflexivity.
Qed.

(** C6.  On a valid catalog with an entry whose id is ["openrouter/auto"],
    the output read at that id is a record with prompt 10 and completion 30,
    whatever pricing strings the entries carry; its context is the
    [context_length] of the last such entry. *)
Theorem processModelData_openrouter_auto (input : data) (models : list Model) :
  inputSchema input = Some models ->
  (exists e, In e models /\ id e = "openrouter/auto") ->
  exists out e',
    processModelData input = Return out
    /\ last_entry "openrouter/auto" models = Some e'
    /\ get out "openrouter/auto"
       = VConfig (mkTokenConfig (Some 10%float) (Some 30%float)
                    (Some (context_length e')) None)
    /\ lookup "openrouter/auto" (own out) = Some (get out "openrouter/auto").
Proof.
  intros Hin (e & He & Hid).
  destruct (last_entry_exists models e He) as [e' He']. rewrite Hid in He'.
  exists (fold_left step models empty), e'.
  split; [now apply processModelData_valid|]. split; [exact He'|].
  assert (Hrec : record_of e' = auto_record e').
  { unfold record_of. apply last_entry_some in He' as [_ ->]. reflexivity. }
  assert (Hown : lookup "openrouter/auto" (own (fold_left step models empty))
                 = Some (VConfig (auto_record e'))).
  { rewrite <- Hrec. apply fold_own; [discriminate | exact He']. }
  rewrite (get_own _ _ _ Hown). split; [reflexivity | exact Hown].
Qed.

Lemma processModelData_openrouter_auto_witness :
  let e := mkModel "openrouter/auto" (mkPricing "-1" "-1") 2000000%float in
  let input :=
    DObject [("data", DArray [DObject [
      ("id", DString "openrouter/auto");
      ("pricing", DObject [("prompt", DString "-1");
                           ("completion", DString "-1")]);
      ("context_length", DNumber 2000000%float)]])] in
  inputSchema input = Some [e]
  /\ (exists e0, In e0 [e] /\ id e0 = "openrouter/auto")
  /\ exists out e',
       processModelData input = Return out
       /\ last_entry "openrouter/auto" [e] = Some e'
       /\ get out "openrouter/auto"
          = VConfig (mkTokenConfig (Some 10%float) (Some 30%float)
                       (Some (context_length e')) None)
       /\ lookup "openrouter/auto" (own out) = Some (get out "openrouter/auto").
Proof.
  intros e input.
  assert (Hin : inputSchema input = Some [e]) by reflexivity.
  assert (Hex : exists e0, In e0 [e] /\ id e0 = "openrouter/auto")
    by (exists e; split; [now left | reflexivity]).
  split; [exact Hin|]. split; [exact Hex|].
  exact (processModelData_openrouter_auto input [e] Hin Hex).
Defined.

Lemma record_of_converted (e : Model) :
  id e <> "openrouter/auto" -> record_of e = converted e.
Proof.
  intros H. apply String.eqb_neq in H. unfold record_of. now rewrite H.
Qed.

Lemma record_of_full (e : Model) :
  exists p q,
    record_of e = mkTokenConfig (Some p) (Some q) (Some (context_length e)) None.
Proof.
  unfold record_of, auto_record, converted.
  destruct (id e =? "openrouter/auto"); eauto.
Qed.

(** C7, as the code has it.  A valid catalog gives an output in which, for
    every input entry whose id is not ["openrouter/auto"], reading the id
    yields the record converted from the last entry [e'] carrying that id:
    prompt and completion are its pricing strings parsed and multiplied by
    1,000,000 and context is its [context_length].  Such an id is an own key
    of the output unless it is ["__proto__"].  Every own value of the output
    is a full record with prompt, completion and context, never a bare
    number, and belongs to an input id; no key occurs twice. *)
Theorem processModelData_entries (input : data) (models : list Model) :
  inputSchema input = Some models ->
  exists out,
    processModelData input = Return out
    /\ (forall e, In e models -> id e <> "openrouter/auto" ->
          exists e',
            last_entry (id e) models = Some e'
            /\ get out (id e) = VConfig (converted e')
            /\ (id e <> "__proto__" ->
                lookup (id e) (own out) = Some (VConfig (converted e'))))
    /\ (forall k v, In (k, v) (own out) ->
          exists e p q,
            In e models /\ id e = k
            /\ v = VConfig (mkTokenConfig (Some p) (Some q)
                              (Some (context_length e)) None))
    /\ NoDup (insertion_keys out).
Proof.
  intros Hin. exists (fold_left step models empty).
  split; [now apply processModelData_valid|]. split; [|split].
  - intros e He Hid. destruct (last_entry_exists models e He) as [e' He'].
    exists e'. split; [exact He'|].
    assert (Hrec : record_of e' = converted e').
    { apply record_of_converted. apply last_entry_some in He' as [_ ->].
      exact Hid. }
    rewrite <- Hrec. split.
    + now apply fold_get.
    + intros Hp. now apply fold_own.
  - intros k v H. apply fold_own_In in H as [[]|(e & He & Hid & ->)].
    destruct (record_of_full e) as (p & q & ->). exists e, p, q. auto.
  - apply fold_NoDup. constructor.
Qed.

Lemma processModelData_entries_witness :
  let input :=
    DObject [("data", DArray [
      DObject [("id", DString "m1");
               ("pricing", DObject [("prompt", DString "0.000001");
                                    ("completion", DString "0.000001")]);
               ("context_length", DNumber 4096%float)];
      DObject [("id", DString "m1");
               ("pricing", DObject [("prompt", DString "0.000002");
                                    ("completion", DString "0.000004")]);
               ("context_length", DNumber 8192%float)]])] in
  let e1 := mkModel "m1" (mkPricing "0.000001" "0.000001") 4096%float in
  let e2 := mkModel "m1" (mkPricing "0.000002" "0.000004") 8192%float in
  inputSchema input = Some [e1; e2]
  /\ exists out,
       processModelData input = Return out
       /\ get out "m1" = VConfig (mkTokenConfig (Some 2%float) (Some 4%float)
                                    (Some 8192%float) None)
       /\ insertion_keys out = ["m1"].
Proof.
  intros input e1 e2.
  assert (Hin : inputSchema input = Some [e1; e2]) by reflexivity.
  split; [exact Hin|].
  destruct (processModelData_entries input [e1; e2] Hin)
    as (out & Hout & Hget & _ & _).
  exists out. split; [exact Hout|].
  assert (Hne : id e1 <> "openrouter/auto") by discriminate.
  destruct (Hget e1 (or_introl eq_refl) Hne) as (e' & He' & Hg & _).
  injection He' as <-. split; [exact Hg|].
  injection Hout as <-. reflexivity.
Defined.

(** C7 as stated fails for the sentinel id: an entry with the id
    ["openrouter/auto"] and the pricing strings ["1"] gets prompt 10 and
    completion 30, not 1,000,000. *)
Lemma processModelData_sentinel_pricing_counterexample :
  let e := mkModel "openrouter/auto" (mkPricing "1" "1") 4096%float in
  let input :=
    DObject [("data", DArray [DObject [
      ("id", DString "openrouter/auto");
      ("pricing", DObject [("prompt", DString "1");
                           ("completion", DString "1")]);
      ("context_length", DNumber 4096%float)]])] in
  let out := literal [("openrouter/auto",
                       VConfig (mkTokenConfig (Some 10%float) (Some 30%float)
                                  (Some 4096%float) None))] in
  inputSchema input = Some [e]
  /\ processModelData input = Return out
  /\ converted e = mkTokenConfig (Some 1000000%float) (Some 1000000%float)
                     (Some 4096%float) None
  /\ get out "openrouter/auto" <> VConfig (converted e).
Proof.
  intros e input out. do 3 (split; [reflexivity|]).
  intros H.
  apply (f_equal (fun v => match value_field v Kprompt with
                           | VNumber x => PrimFloat.eqb x 10%float
                           | _ => false
                           end)) in H.
  vm_compute in H. discriminate.
Qed.

(** An entry with the id ["__proto__"] does not become an own key: the
    assignment replaces the prototype of the output, through which the
    record is read back and its fields appear as inherited properties. *)
Example processModelData_proto_id :
  let input :=
    DObject [("data", DArray [DObject [
      ("id", DString "__proto__");
      ("pricing", DObject [("prompt", DString "0.000002");
                           ("completion", DString "0.000004")]);
      ("context_length", DNumber 8192%float)]])] in
  let r := mkTokenConfig (Some 2%float) (Some 4%float) (Some 8192%float) None in
  processModelData input = Return (mkObject [] (Some r))
  /\ Object_keys (mkObject [] (Some r)) = []
  /\ get (mkObject [] (Some r)) "__proto__" = VConfig r
  /\ get (mkObject [] (Some r)) "context" = VNumber 8192%float.
Proof. repeat split. Qed.

(** ** Validation *)

Lemma z_string_shape (d : data) :
  (exists s, z_string d = Some s) <-> is_string d.
Proof.
  unfold is_string. destruct d; cbn [z_string]; split; intros [x H];
    try discriminate; eauto.
Qed.

Lemma z_number_shape (d : data) :
  (exists n, z_number d = Some n) <-> is_numeric d.
Proof.
  unfold is_numeric. destruct d; cbn [z_number]; split;
    try (intros [x H]; discriminate);
    try (intros (x & H & _); discriminate).
  - intros [x H]. exists n. destruct (PrimFloat.is_nan n); [discriminate|auto].
  - intros (x & [= <-] & ->). eauto.
Qed.

Lemma pricingSchema_shape (d : data) :
  (exists p, pricingSchema d = Some p) <-> PricingShape d.
Proof.
  unfold PricingShape, is_object.
  rewrite <- (z_string_shape (prop d "prompt")).
  rewrite <- (z_string_shape (prop d "completion")).
  destruct d; cbn [pricingSchema]; split;
    try (intros [x H]; discriminate);
    try (intros ([x H] & _); discriminate).
  - intros [p H]. split; [eauto|].
    destruct (z_string (prop (DObject props) "prompt"));
      destruct (z_string (prop (DObject props) "completion"));
      try discriminate; eauto.
  - intros (_ & [p ->] & [c ->]). eauto.
Qed.

Lemma modelSchema_shape (d : data) :
  (exists m, modelSchema d = Some m) <-> EntryShape d.
Proof.
  unfold EntryShape, is_object.
  rewrite <- (z_string_shape (prop d "id")).
  rewrite <- (pricingSchema_shape (prop d "pricing")).
  rewrite <- (z_number_shape (prop d "context_length")).
  destruct d; cbn [modelSchema]; split;
    try (intros [x H]; discriminate);
    try (intros ([x H] & _); discriminate).
  - intros [m H]. split; [eauto|].
    destruct (z_string (prop (DObject props) "id"));
      destruct (pricingSchema (prop (DObject props) "pricing"));
      destruct (z_number (prop (DObject props) "context_length"));
      try discriminate; repeat split; eauto.
  - intros (_ & [i ->] & [p ->] & [c ->]). eauto.
Qed.

Lemma z_array_shape (items : list data) :
  (exists l, z_array modelSchema items = Some l) <-> Forall EntryShape items.
Proof.
  induction items as [|d r IH]; cbn [z_array].
  - split; eauto.
  - split.
    + intros [l H]. destruct (modelSchema d) eqn:Hd; [|discriminate].
      destruct (z_array modelSchema r) eqn:Hr; [|discriminate].
      constructor; [apply modelSchema_shape | apply IH]; eauto.
    + intros H. inversion H as [|? ? Hd Hr]; subst.
      apply modelSchema_shape in Hd as [m ->]. apply IH in Hr as [l ->]. eauto.
Qed.

(** The schema accepts exactly the inputs of the catalog shape. *)
Lemma inputSchema_shape (d : data) :
  (exists l, inputSchema d = Some l) <-> CatalogShape d.
Proof.
  unfold CatalogShape, is_object.
  destruct d; cbn [inputSchema]; split;
    try (intros [x H]; discriminate);
    try (intros ([x H] & _); discriminate).
  - intros [l H]. split; [eauto|].
    destruct (prop (DObject props) "data"); try discriminate.
    exists items. split; [reflexivity|]. apply z_array_shape. eauto.
  - intros (_ & items & -> & H). now apply z_array_shape.
Qed.

(** C8.  An input that does not have the catalog shape makes
    [processModelData] throw the error "Invalid input data": the call has no
    result at all, whatever the other entries are.  An input of the catalog
    shape never throws. *)
Theorem processModelData_validation (input : data) :
  (~ CatalogShape input -> processModelData input = Throw "Invalid input data")
  /\ (CatalogShape input -> exists out, processModelData input = Return out).
Proof.
  unfold processModelData. split.
  - intros H. destruct (inputSchema input) as [l|] eqn:Hs; [|reflexivity].
    elim H. apply inputSchema_shape. eauto.
  - intros H. apply inputSchema_shape in H as [l ->]. eauto.
Qed.

Lemma processModelData_validation_witness :
  let good :=
    DObject [("id", DString "m1");
             ("pricing", DObject [("prompt", DString "0.000002");
                                  ("completion", DString "0.000004")]);
             ("context_length", DNumber 8192%float)] in
  let missing :=
    DObject [("id", DString "m2");
             ("pricing", DObject [("prompt", DString "0.000002");
                                  ("completion", DString "0.000004")])] in
  let input := DObject [("data", DArray [good; missing])] in
  ~ CatalogShape input
  /\ processModelData input = Throw "Invalid input data".
Proof.
  intros good missing input.
  assert (H : ~ CatalogShape input).
  { intros Hs. apply inputSchema_shape in Hs as [l Hl]. discriminate. }
  split; [exact H|]. exact (proj1 (processModelData_validation input) H).
Defined.

(** The malformed entries the specification names: no [pricing], a
    [context_length] that is a string, an entry that is not an object, and
    a [context_length] that is [NaN]. *)
Example processModelData_rejects :
  let pricing := DObject [("prompt", DString "1"); ("completion", DString "2")] in
  let catalog entry := DObject [("data", DArray [entry])] in
  processModelData
    (catalog (DObject [("id", DString "m"); ("context_length", DNumber 1%float)]))
  = Throw "Invalid input data"
  /\ processModelData
       (catalog (DObject [("id", DString "m"); ("pricing", pricing);
                          ("context_length", DString "8192")]))
     = Throw "Invalid input data"
  /\ processModelData (catalog (DString "m")) = Throw "Invalid input data"
  /\ processModelData
       (catalog (DObject [("id", DString "m"); ("pricing", pricing);
                          ("context_length", DNumber nan)]))
     = Throw "Invalid input data"
  /\ processModelData DUndefined = Throw "Invalid input data".
Proof. repeat split. Qed.

(** ** Letter case *)

Lemma lower_char_not_upper (c : ascii) : is_upper (lower_char c) = false.
Proof. destruct c as [[] [] [] [] [] [] [] []]; reflexivity. Qed.

Lemma lower_char_idem (c : ascii) : lower_char (lower_char c) = lower_char c.
Proof. destruct c as [[] [] [] [] [] [] [] []]; reflexivity. Qed.

Lemma toLowerCase_idem (s : string) : toLowerCase (toLowerCase s) = toLowerCase s.
Proof.
  induction s as [|c r IH]; [reflexivity|].
  cbn [toLowerCase]. now rewrite lower_char_idem, IH.
Qed.

Lemma toLowerCase_no_upper (s : string) : has_upper (toLowerCase s) = false.
Proof.
  induction s as [|c r IH]; [reflexivity|].
  cbn [toLowerCase has_upper]. now rewrite lower_char_not_upper, IH.
Qed.

Lemma has_upper_app (a b : string) :
  has_upper (a ++ b)%string = has_upper a || has_upper b.
Proof.
  induction a as [|c r IH]; [reflexivity|].
  cbn [String.append has_upper]. now rewrite IH, orb_assoc.
Qed.

Lemma Substring_no_upper (sub s : string) :
  Substring sub s -> has_upper s = false -> has_upper sub = false.
Proof.
  intros (a & b & ->). rewrite !has_upper_app.
  destruct (has_upper sub); [|reflexivity].
  rewrite orb_true_r. cbn [orb]. discriminate.
Qed.

(** X1.  Keys are compared as they are written, against the lowercased
    name: a key that contains an upper-case letter is never returned by
    [findMatchingPattern], whatever the model name. *)
Theorem findMatchingPattern_upper_key_dead
  (modelName : string) (tokensMap : object) (k : string) :
  has_upper k = true -> findMatchingPattern modelName tokensMap <> Some k.
Proof.
  intros Hk H. apply findMatchingPattern_last in H as (_ & _ & _ & Hsub & _).
  apply Substring_no_upper in Hsub; [congruence|].
  apply toLowerCase_no_upper.
Qed.

Lemma findMatchingPattern_upper_key_dead_witness :
  let m := literal [("GPT-4", VNumber 8187%float)] in
  has_upper "GPT-4" = true
  /\ findMatchingPattern "GPT-4" m <> Some "GPT-4"
  /\ findMatchingPattern "GPT-4" m = None.
Proof.
  intros m. split; [reflexivity|]. split; [|reflexivity].
  apply (findMatchingPattern_upper_key_dead "GPT-4" m "GPT-4"). reflexivity.
Defined.

(** X2.  The scan sees the model name only through its lowercase form:
    lowercasing the name beforehand changes nothing, and two names that
    differ only in letter case get the same key. *)
Theorem findMatchingPattern_case_insensitive
  (modelName modelName' : string) (tokensMap : object) :
  findMatchingPattern (toLowerCase modelName) tokensMap
  = findMatchingPattern modelName tokensMap
  /\ (toLowerCase modelName = toLowerCase modelName' ->
      findMatchingPattern modelName tokensMap
      = findMatchingPattern modelName' tokensMap).
Proof.
  split.
  - rewrite !findMatchingPattern_find. now rewrite toLowerCase_idem.
  - intros H. rewrite !findMatchingPattern_find. now rewrite H.
Qed.

Lemma findMatchingPattern_case_insensitive_witness :
  let m := literal [("gpt-4", VNumber 8187%float);
                    ("gpt-4-32k", VNumber 32755%float)] in
  toLowerCase "GPT-4-32K-0613" = toLowerCase "gpt-4-32k-0613"
  /\ findMatchingPattern "GPT-4-32K-0613" m
     = findMatchingPattern "gpt-4-32k-0613" m.
Proof.
  intros m. split; [reflexivity|].
  apply (findMatchingPattern_case_insensitive "GPT-4-32K-0613"
           "gpt-4-32k-0613" m).
  reflexivity.
Defined.

(** ** Assignments and the scan *)

Lemma index_keys_snoc (ks : list string) (k : string) :
  is_array_index k = false -> index_keys (ks ++ [k]) = index_keys ks.
Proof.
  unfold is_array_index. intros Hk.
  induction ks as [|k' r IH]; cbn [app index_keys].
  - now destruct (array_index k).
  - now rewrite IH.
Qed.

Lemma Object_keys_snoc (ps : list (string * value)) (p : option TokenConfig)
  (k : string) (v : value) :
  is_array_index k = false ->
  Object_keys (mkObject (ps ++ [(k, v)]) p) = Object_keys (mkObject ps p) ++ [k].
Proof.
  intros Hk. unfold Object_keys, insertion_keys. cbn [own].
  rewrite map_app. cbn [map fst].
  rewrite index_keys_snoc by exact Hk.
  rewrite filter_app. cbn [filter]. rewrite Hk. cbn [negb].
  now rewrite app_assoc.
Qed.

Lemma insertion_keys_set (o : object) (k : string) (c : TokenConfig) :
  insertion_keys (set o k c)
  = if has_own o k then insertion_keys o
    else if k =? "__proto__" then insertion_keys o
    else insertion_keys o ++ [k].
Proof.
  unfold set, insertion_keys. destruct (has_own o k); cbn [own].
  - apply map_fst_update.
  - destruct (k =? "__proto__"); cbn [own]; [reflexivity|].
    now rewrite map_app.
Qed.

(** X3.  How one assignment [tokenConfig[k] = record] changes the scan.
    Overwriting an existing key changes no answer of [findMatchingPattern].
    A new key (not an array index, not ["__proto__"]) takes priority over
    every older key: it is returned for every name it occurs in, and the
    other names keep their answer. *)
Theorem findMatchingPattern_after_set
  (modelName : string) (o : object) (k : string) (c : TokenConfig) :
  (has_own o k = true ->
   findMatchingPattern modelName (set o k c) = findMatchingPattern modelName o)
  /\ (has_own o k = false -> k <> "__proto__" -> is_array_index k = false ->
      findMatchingPattern modelName (set o k c)
      = if includes (toLowerCase modelName) k then Some k
        else findMatchingPattern modelName o).
Proof.
  split.
  - intros Hown. rewrite !findMatchingPattern_find. unfold Object_keys.
    now rewrite insertion_keys_set, Hown.
  - intros Hown Hp Hk. rewrite !findMatchingPattern_find.
    apply String.eqb_neq in Hp. unfold set. rewrite Hown, Hp.
    destruct o as [ps p]. cbn [own proto].
    rewrite Object_keys_snoc by exact Hk.
    rewrite rev_unit. reflexivity.
Qed.

Lemma findMatchingPattern_after_set_witness :
  let r := mkTokenConfig None None (Some 1%float) None in
  let o := literal [("gpt-4", VNumber 8187%float)] in
  has_own o "gpt-4-32k" = false
  /\ findMatchingPattern "gpt-4-32k-0613" o = Some "gpt-4"
  /\ findMatchingPattern "gpt-4-32k-0613" (set o "gpt-4-32k" r) = Some "gpt-4-32k"
  /\ findMatchingPattern "gpt-4-0613" (set o "gpt-4-32k" r) = Some "gpt-4"
  /\ findMatchingPattern "gpt-4-0613" (set o "gpt-4" r) = Some "gpt-4".
Proof.
  intros r o. do 2 (split; [reflexivity|]). split; [|split].
  - apply (findMatchingPattern_after_set "gpt-4-32k-0613" o "gpt-4-32k" r);
      [reflexivity | discriminate | reflexivity].
  - apply (findMatchingPattern_after_set "gpt-4-0613" o "gpt-4-32k" r);
      [reflexivity | discriminate | reflexivity].
  - exact (proj1 (findMatchingPattern_after_set "gpt-4-0613" o "gpt-4" r)
             eq_refl).
Defined.

(** ** What the lookups can return *)

Lemma lookup_In (k : string) (v : value) (ps : list (string * value)) :
  lookup k ps = Some v -> In (k, v) ps.
Proof.
  induction ps as [|[k' v'] r IH]; cbn [lookup]; [discriminate|].
  destruct (String.eqb_spec k k') as [->|Hne].
  - intros [= ->]. now left.
  - intros H. right. auto.
Qed.

Lemma get_plain (m : object) (name : string) :
  proto m = None -> lookup name (own m) = None ->
  get m name = VUndefined \/ get m name = VBuiltin.
Proof.
  intros Hp Hl. unfold get, inherited. rewrite Hl, Hp.
  destruct (name =? "__proto__"); [now right|].
  destruct (existsb _ _); auto.
Qed.

Lemma matched_own (name : string) (m : object) (p : string) :
  findMatchingPattern name m = Some p ->
  exists v, lookup p (own m) = Some v /\ get m p = v.
Proof.
  intros H. apply findMatchingPattern_own, In_lookup in H as [v Hv].
  exists v. split; [exact Hv | now apply get_own].
Qed.

Lemma matchModelName_string (Endpoint : Type)
  (maxTokensMap : Endpoint -> option object) (name : string)
  (endpoint : Endpoint) :
  exists r, matchModelName maxTokensMap (Str name) endpoint = Some r.
Proof.
  unfold matchModelName. destruct (maxTokensMap endpoint) as [m|]; [|eauto].
  destruct (truthy (get m name)); [eauto|].
  destruct (findMatchingPattern name m) as [p|]; [|eauto].
  destruct (truthy_string p); eauto.
Qed.

(** X4.  For a string, [matchModelName] always returns a string, and only
    one of two: the name it was given, or a non-empty own key of the
    endpoint's table that occurs in the lowercased name. *)
Theorem matchModelName_result (Endpoint : Type)
  (maxTokensMap : Endpoint -> option object) (name : string)
  (endpoint : Endpoint) :
  exists r,
    matchModelName maxTokensMap (Str name) endpoint = Some r
    /\ (r = name
        \/ exists m,
             maxTokensMap endpoint = Some m
             /\ In r (insertion_keys m)
             /\ Substring r (toLowerCase name)
             /\ r <> "").
Proof.
  unfold matchModelName. destruct (maxTokensMap endpoint) as [m|]; [|eauto].
  destruct (truthy (get m name)); [eauto|].
  destruct (findMatchingPattern name m) as [p|] eqn:Hp; [|eauto].
  destruct (truthy_string p) eqn:Hs; [|eauto].
  exists p. split; [reflexivity|]. right. exists m. split; [reflexivity|].
  split; [now apply findMatchingPattern_own in Hp|].
  split; [|now apply truthy_string_iff].
  apply findMatchingPattern_last in Hp as (_ & _ & _ & H & _). exact H.
Qed.

(** X5.  On a table whose values are all truthy (no limit is [0]),
    [matchModelName] is idempotent: the name it returns is returned
    unchanged when it is given back. *)
Theorem matchModelName_idempotent (Endpoint : Type)
  (maxTokensMap : Endpoint -> option object) (endpoint : Endpoint) :
  (forall m, maxTokensMap endpoint = Some m -> truthy_values m) ->
  forall modelName,
    matchModelName maxTokensMap
      (arg_of (matchModelName maxTokensMap modelName endpoint)) endpoint
    = matchModelName maxTokensMap modelName endpoint.
Proof.
  intros Hm [name|]; [|reflexivity].
  assert (Hstep : forall r, matchModelName maxTokensMap (Str name) endpoint = Some r ->
            matchModelName maxTokensMap (Str r) endpoint = Some r).
  { unfold matchModelName.
    destruct (maxTokensMap endpoint) as [m|] eqn:Ht; [|now intros r [= <-]].
    pose proof (Hm m eq_refl) as Hv.
    destruct (truthy (get m name)) eqn:Hg.
    - intros r [= <-]. now rewrite Hg.
    - destruct (findMatchingPattern name m) as [p|] eqn:Hp.
      + destruct (truthy_string p) eqn:Hs; intros r [= <-].
        * destruct (matched_own _ _ _ Hp) as (v & Hl & ->).
          now rewrite (Hv p v Hl).
        * now rewrite Hg, Hp, Hs.
      + intros r [= <-]. now rewrite Hg, Hp. }
  destruct (matchModelName_string Endpoint maxTokensMap name endpoint)
    as (r & Hr).
  rewrite Hr. cbn [arg_of]. now apply Hstep.
Qed.

Lemma matchModelName_idempotent_witness :
  let m := literal [("gpt-4", VNumber 8187%float);
                    ("gpt-4-32k", VNumber 32755%float)] in
  let table := fun _ : unit => Some m in
  (forall m', table tt = Some m' -> truthy_values m')
  /\ matchModelName table (Str "gpt-4-32k-unknown") tt = Some "gpt-4-32k"
  /\ matchModelName table
       (arg_of (matchModelName table (Str "gpt-4-32k-unknown") tt)) tt
     = Some "gpt-4-32k".
Proof.
  intros m table.
  assert (H : forall m', table tt = Some m' -> truthy_values m').
  { intros m' [= <-] k v. cbn [m literal own lookup].
    destruct (k =? "gpt-4"); [now intros [= <-]|].
    destruct (k =? "gpt-4-32k"); [now intros [= <-]|]. discriminate. }
  split; [exact H|]. split; [reflexivity|].
  exact (matchModelName_idempotent unit table tt H (Str "gpt-4-32k-unknown")).
Defined.

(** X6.  Canonicalising first does not change the limit: on a built-in
    table of non-zero bare numbers, [getModelMaxTokens] gives the same
    result for a name and for the name [matchModelName] returns for it. *)
Theorem getModelMaxTokens_matchModelName (Endpoint : Type)
  (maxTokensMap : Endpoint -> option object) (endpoint : Endpoint) :
  (forall m, maxTokensMap endpoint = Some m ->
             numbers_only m /\ truthy_values m) ->
  forall modelName,
    getModelMaxTokens maxTokensMap
      (arg_of (matchModelName maxTokensMap modelName endpoint)) endpoint None
    = getModelMaxTokens maxTokensMap modelName endpoint None.
Proof.
  intros Hm [name|]; [|reflexivity].
  unfold getModelMaxTokens, nullish, matchModelName.
  destruct (maxTokensMap endpoint) as [m|] eqn:Ht; [|reflexivity].
  destruct (Hm m eq_refl) as [[Hproto Hnum] Htr].
  destruct (truthy (get m name)) eqn:Hg; [reflexivity|].
  assert (Hu : get m name = VUndefined).
  { destruct (lookup name (own m)) as [v|] eqn:Hl.
    - rewrite (get_own _ _ _ Hl) in Hg. rewrite (Htr _ _ Hl) in Hg.
      discriminate.
    - destruct (get_plain m name Hproto Hl) as [H|H]; [exact H|].
      rewrite H in Hg. discriminate. }
  destruct (findMatchingPattern name m) as [p|] eqn:Hp; [|reflexivity].
  destruct (truthy_string p) eqn:Hs; [|reflexivity].
  cbn [arg_of]. destruct (matched_own _ _ _ Hp) as (v & Hv & Hgp).
  pose proof (Hnum _ _ Hv) as Hn.
  unfold getModelTokenValue. cbv zeta.
  rewrite Hu, Hp, Hs, Hgp, Hn. reflexivity.
Qed.

Lemma getModelMaxTokens_matchModelName_witness :
  let m := literal [("gpt-4", VNumber 8187%float);
                    ("gpt-4-32k", VNumber 32755%float)] in
  let table := fun _ : unit => Some m in
  (forall m', table tt = Some m' -> numbers_only m' /\ truthy_values m')
  /\ getModelMaxTokens table (Str "gpt-4-32k-unknown") tt None
     = VNumber 32755%float
  /\ getModelMaxTokens table
       (arg_of (matchModelName table (Str "gpt-4-32k-unknown") tt)) tt None
     = VNumber 32755%float.
Proof.
  intros m table.
  assert (H : forall m', table tt = Some m' ->
                         numbers_only m' /\ truthy_values m').
  { intros m' [= <-]. split; [split; [reflexivity|]|]; intros k v;
      cbn [m literal own lookup];
      (destruct (k =? "gpt-4"); [now intros [= <-]|]);
      (destruct (k =? "gpt-4-32k"); [now intros [= <-]|]); discriminate. }
  split; [exact H|]. split; [reflexivity|].
  exact (getModelMaxTokens_matchModelName unit table tt H
           (Str "gpt-4-32k-unknown")).
Defined.

Lemma get_number_stored (m : object) (x : string) (n : float) :
  get m x = VNumber n -> stored m n.
Proof.
  unfold get, inherited, stored.
  destruct (lookup x (own m)) as [v|] eqn:Hl.
  - intros ->. left. exists x. now apply lookup_In.
  - destruct (x =? "__proto__"); [now destruct (proto m)|].
    destruct (proto m) as [c|].
    + destruct (key_of_name x) as [f|].
      * destruct (field c f) as [n'|] eqn:Hf; [|discriminate].
        intros [= ->]. right. right. eauto.
      * now destruct (existsb _ _).
    + now destruct (existsb _ _).
Qed.

Lemma get_field_stored (m : object) (x : string) (k : key) (n : float) :
  value_field (get m x) k = VNumber n -> stored m n.
Proof.
  destruct (get m x) as [|n'|c|] eqn:Hg; cbn [value_field]; try discriminate.
  destruct (field c k) as [n'|] eqn:Hf; [|discriminate].
  intros [= ->]. unfold get, inherited in Hg. unfold stored.
  destruct (lookup x (own m)) as [v|] eqn:Hl.
  - subst v. right. left. exists x, c, k. split; [now apply lookup_In | exact Hf].
  - right. right. destruct (x =? "__proto__").
    + destruct (proto m) as [c'|]; [|discriminate]. injection Hg as ->. eauto.
    + destruct (proto m) as [c'|].
      * destruct (key_of_name x) as [f|].
        -- now destruct (field c' f).
        -- now destruct (existsb _ _).
      * now destruct (existsb _ _).
Qed.

Lemma value_field_cases (v : value) (k : key) :
  value_field v k = VUndefined \/ exists n, value_field v k = VNumber n.
Proof.
  destruct v as [| |c|]; cbn [value_field]; auto.
  destruct (field c k); cbn [field_value]; eauto.
Qed.

Lemma is_number_inv (v : value) :
  is_number v = true -> exists n, v = VNumber n.
Proof. destruct v; try discriminate. eauto. Qed.

(** X7.  [getModelTokenValue] makes up no value: what it returns is
    [undefined], or the value of [tokensMap.system_default], or a number
    that the map holds (a bare number, or a field of one of its records). *)
Theorem getModelTokenValue_from_map
  (modelName : arg) (tokensMap : option object) (k : key) :
  getModelTokenValue modelName tokensMap k = VUndefined
  \/ exists m,
       tokensMap = Some m
       /\ (getModelTokenValue modelName tokensMap k = get m "system_default"
           \/ exists n,
                getModelTokenValue modelName tokensMap k = VNumber n
                /\ stored m n).
Proof.
  destruct modelName as [name|]; [|now left].
  destruct tokensMap as [m|]; [|now left].
  right. exists m. split; [reflexivity|].
  unfold getModelTokenValue. cbv zeta.
  destruct (is_number (get m name)) eqn:Hn.
  { apply is_number_inv in Hn as [n Hn]. right. exists n.
    split; [exact Hn | now apply (get_number_stored m name)]. }
  assert (Hrest :
    forall r, r = match findMatchingPattern name m with
                  | Some p =>
                      if truthy_string p then
                        if is_number (get m p) then get m p
                        else if is_number (value_field (get m p) k)
                             then value_field (get m p) k
                             else get m "system_default"
                      else get m "system_default"
                  | None => get m "system_default"
                  end ->
              r = get m "system_default"
              \/ exists n, r = VNumber n /\ stored m n).
  { intros r ->. destruct (findMatchingPattern name m) as [p|]; [|now left].
    destruct (truthy_string p); [|now left].
    destruct (is_number (get m p)) eqn:Hp.
    { apply is_number_inv in Hp as [n Hp]. right. exists n.
      split; [exact Hp | now apply (get_number_stored m p)]. }
    destruct (value_field_cases (get m p) k) as [Hk|[n Hk]]; rewrite Hk;
      cbn [is_number]; [now left|].
    right. exists n. split; [reflexivity | now apply (get_field_stored m p k)]. }
  destruct (value_field_cases (get m name) Kcontext) as [Hc|[n Hc]]; rewrite Hc;
    cbn [truthy]; [now apply Hrest|].
  destruct (truthy_number n); [|now apply Hrest].
  right. exists n. split; [reflexivity|].
  now apply (get_field_stored m name Kcontext).
Qed.

(** X8.  On a table of bare numbers the requested field plays no part:
    [getModelTokenValue] returns the same value for every field, so the
    context lookup and the output lookup of one table agree. *)
Theorem getModelTokenValue_numbers_any_field
  (modelName : arg) (m : object) (k k' : key) :
  numbers_only m ->
  getModelTokenValue modelName (Some m) k
  = getModelTokenValue modelName (Some m) k'.
Proof.
  intros [Hproto Hnum]. destruct modelName as [name|]; [|reflexivity].
  unfold getModelTokenValue. cbv zeta.
  destruct (is_number (get m name)); [reflexivity|].
  destruct (truthy (value_field (get m name) Kcontext)); [reflexivity|].
  destruct (findMatchingPattern name m) as [p|] eqn:Hp; [|reflexivity].
  destruct (truthy_string p); [|reflexivity].
  destruct (matched_own _ _ _ Hp) as (v & Hv & ->).
  now rewrite (Hnum _ _ Hv).
Qed.

Lemma getModelTokenValue_numbers_any_field_witness :
  let m := literal [("gpt-4", VNumber 8187%float);
                    ("system_default", VNumber 4096%float)] in
  numbers_only m
  /\ getModelTokenValue (Str "gpt-4-0613") (Some m) Koutput = VNumber 8187%float
  /\ getModelTokenValue (Str "gpt-4-0613") (Some m) Kcontext
     = getModelTokenValue (Str "gpt-4-0613") (Some m) Koutput.
Proof.
  intros m.
  assert (H : numbers_only m).
  { split; [reflexivity|]. intros k v. cbn [m literal own lookup].
    destruct (k =? "gpt-4"); [now intros [= <-]|].
    destruct (k =? "system_default"); [now intros [= <-]|]. discriminate. }
  split; [exact H|]. split; [reflexivity|].
  exact (getModelTokenValue_numbers_any_field (Str "gpt-4-0613") m
           Kcontext Koutput H).
Defined.

(** ** The catalog as a token map *)

Lemma existsb_filter_neq (x a : string) (l : list string) :
  existsb (String.eqb x) (filter (fun y => negb (y =? a)) l)
  = negb (x =? a) && existsb (String.eqb x) l.
Proof.
  induction l as [|y r IH]; cbn [filter existsb]; [now rewrite andb_false_r|].
  destruct (String.eqb_spec y a) as [->|Hy]; cbn [negb existsb].
  - rewrite IH. destruct (x =? a); cbn [negb andb orb]; reflexivity.
  - rewrite IH. destruct (String.eqb_spec x y) as [->|Hxy]; cbn [orb].
    + apply String.eqb_neq in Hy. now rewrite Hy.
    + reflexivity.
Qed.

Lemma existsb_first_occurrences (x : string) (l : list string) :
  existsb (String.eqb x) (first_occurrences l) = existsb (String.eqb x) l.
Proof.
  induction l as [|a r IH]; [reflexivity|].
  cbn [first_occurrences existsb]. rewrite existsb_filter_neq, IH.
  now destruct (x =? a).
Qed.

Lemma first_occurrences_snoc (l : list string) (x : string) :
  first_occurrences (l ++ [x])
  = if existsb (String.eqb x) l then first_occurrences l
    else first_occurrences l ++ [x].
Proof.
  induction l as [|a r IH]; [reflexivity|].
  cbn [app first_occurrences existsb]. rewrite IH.
  destruct (String.eqb_spec x a) as [->|Hne]; cbn [orb].
  - destruct (existsb (String.eqb a) r); [reflexivity|].
    rewrite filter_app. cbn [filter]. rewrite String.eqb_refl. cbn [negb].
    now rewrite app_nil_r.
  - destruct (existsb (String.eqb x) r); [reflexivity|].
    rewrite filter_app. cbn [filter]. apply String.eqb_neq in Hne.
    now rewrite Hne.
Qed.

Lemma has_own_existsb (o : object) (k : string) :
  has_own o k = existsb (String.eqb k) (insertion_keys o).
Proof.
  unfold has_own, insertion_keys.
  induction (own o) as [|[k' v] r IH]; [reflexivity|].
  cbn [lookup map fst existsb]. now destruct (k =? k').
Qed.

(** X9.  The own keys of the output are the ids of the catalog in the order
    of their first occurrence (the id ["__proto__"] left out): an entry
    that repeats an id overwrites the value and keeps the key where it was,
    so it gains no priority in the scan. *)
Theorem processModelData_key_order (input : data) (models : list Model) :
  inputSchema input = Some models ->
  exists out,
    processModelData input = Return out
    /\ insertion_keys out
       = first_occurrences
           (filter (fun k => negb (k =? "__proto__")) (map id models)).
Proof.
  intros Hin. exists (fold_left step models empty).
  split; [now apply processModelData_valid|]. clear Hin.
  induction models as [|x l IH] using rev_ind; [reflexivity|].
  rewrite fold_step_snoc, insertion_keys_set, map_app, filter_app.
  cbn [map filter].
  destruct (String.eqb_spec (id x) "__proto__") as [Heq|Hne]; cbn [negb].
  - rewrite Heq, (fold_no_own_proto l empty eq_refl), app_nil_r. exact IH.
  - rewrite first_occurrences_snoc, has_own_existsb, IH.
    rewrite existsb_first_occurrences.
    now destruct (existsb _ _).
Qed.

Lemma processModelData_key_order_witness :
  let entry i c :=
    DObject [("id", DString i);
             ("pricing", DObject [("prompt", DString "0.000001");
                                  ("completion", DString "0.000002")]);
             ("context_length", DNumber c)] in
  let input :=
    DObject [("data", DArray [entry "a" 1%float; entry "a-b" 2%float;
                              entry "a" 3%float])] in
  exists models out,
    inputSchema input = Some models
    /\ processModelData input = Return out
    /\ insertion_keys out = ["a"; "a-b"]
    /\ findMatchingPattern "a-b-c" out = Some "a-b".
Proof.
  intros entry input.
  destruct (inputSchema input) as [models|] eqn:Hin; [|discriminate].
  destruct (processModelData_key_order input models Hin) as (out & Hout & Hk).
  exists models, out. split; [reflexivity|]. split; [exact Hout|].
  injection Hin as <-. injection Hout as <-.
  split; [exact Hk | reflexivity].
Defined.

(** X10.  With the output of [processModelData] as the endpoint's token
    config, [getModelMaxTokens] and [getModelMaxOutputTokens] both return
    the [context_length] of the last catalog entry with the given id (when
    it is not [0]), whatever the built-in tables hold: the catalog records
    have no [output] field and the exact match answers with [context]. *)
Theorem getModelMax_catalog
  (input : data) (models : list Model) (k : string) (e : Model) :
  inputSchema input = Some models ->
  last_entry k models = Some e ->
  truthy_number (context_length e) = true ->
  exists out,
    processModelData input = Return out
    /\ forall (Endpoint : Type) (table : Endpoint -> option object)
              (endpoint : Endpoint),
         getModelMaxTokens table (Str k) endpoint (Some out)
         = VNumber (context_length e)
         /\ getModelMaxOutputTokens table (Str k) endpoint (Some out)
            = VNumber (context_length e).
Proof.
  intros Hin He Ht. exists (fold_left step models empty).
  split; [now apply processModelData_valid|].
  intros Endpoint table endpoint.
  unfold getModelMaxTokens, getModelMaxOutputTokens, nullish.
  split; apply (exact_context k _ (record_of e)); auto using context_record_of;
    now apply fold_get.
Qed.

Lemma getModelMax_catalog_witness :
  let e := mkModel "m1" (mkPricing "0.000002" "0.000004") 8192%float in
  let input :=
    DObject [("data", DArray [DObject [
      ("id", DString "m1");
      ("pricing", DObject [("prompt", DString "0.000002");
                           ("completion", DString "0.000004")]);
      ("context_length", DNumber 8192%float)]])] in
  let table := fun _ : unit => Some (literal [("m1", VNumber 4096%float)]) in
  inputSchema input = Some [e]
  /\ last_entry "m1" [e] = Some e
  /\ truthy_number (context_length e) = true
  /\ exists out,
       processModelData input = Return out
       /\ getModelMaxOutputTokens table (Str "m1") tt (Some out)
          = VNumber 8192%float
       /\ getModelMaxOutputTokens table (Str "m1") tt None = VNumber 4096%float.
Proof.
  intros e input table. do 3 (split; [reflexivity|]).
  destruct (getModelMax_catalog input [e] "m1" e eq_refl eq_refl eq_refl)
    as (out & Hout & H).
  exists out. split; [exact Hout|]. split; [|reflexivity].
  exact (proj2 (H unit table tt)).
Defined.

Lemma fold_proto_unchanged (models : list Model) (o : object) :
  (forall e, In e models -> id e <> "__proto__") ->
  proto (fold_left step models o) = proto o.
Proof.
  induction models as [|x l IH] using rev_ind; [reflexivity|].
  intros H. rewrite fold_step_snoc. unfold set.
  assert (Hx : id x <> "__proto__") by (apply H, in_or_app; right; now left).
  apply String.eqb_neq in Hx. rewrite Hx.
  destruct (has_own (fold_left step l o) (id x)); cbn [proto]; apply IH;
    intros e He; apply H, in_or_app; now left.
Qed.

Lemma fold_lookup_none (models : list Model) (k : string) :
  (forall e, In e models -> id e <> k) ->
  lookup k (own (fold_left step models empty)) = None.
Proof.
  intros H. destruct (lookup _ _) as [v|] eqn:Hl; [|reflexivity].
  apply lookup_In, fold_own_In in Hl as [[]|(e & He & Hid & _)].
  now elim (H e He).
Qed.

(** X11.  A catalog-derived config shadows the built-in table: for a name
    that is no id of the catalog and in whose lowercase form no id occurs,
    [getModelMaxTokens] returns [undefined] when the config is passed,
    whatever limit the built-in table has for the name.  (No entry may
    carry the id ["__proto__"] or ["system_default"].) *)
Theorem getModelMaxTokens_catalog_unknown
  (input : data) (models : list Model) (name : string) :
  inputSchema input = Some models ->
  (forall e, In e models ->
     id e <> name /\ id e <> "__proto__" /\ id e <> "system_default"
     /\ ~ Substring (id e) (toLowerCase name)) ->
  exists out,
    processModelData input = Return out
    /\ forall (Endpoint : Type) (table : Endpoint -> option object)
              (endpoint : Endpoint),
         getModelMaxTokens table (Str name) endpoint (Some out) = VUndefined.
Proof.
  intros Hin H. exists (fold_left step models empty).
  split; [now apply processModelData_valid|].
  intros Endpoint table endpoint. unfold getModelMaxTokens, nullish.
  set (out := fold_left step models empty).
  assert (Hproto : proto out = None).
  { unfold out. rewrite fold_proto_unchanged; [reflexivity|].
    intros e He. now apply H. }
  assert (Hname : lookup name (own out) = None).
  { apply fold_lookup_none. intros e He. now apply H. }
  assert (Hdef : get out "system_default" = VUndefined).
  { apply get_system_default_absent. unfold has_own, out.
    rewrite fold_lookup_none; [reflexivity|]. intros e He. now apply H. }
  assert (Hpat : findMatchingPattern name out = None).
  { apply findMatchingPattern_null. intros k Hk.
    apply In_lookup in Hk as [v Hv].
    apply lookup_In, fold_own_In in Hv as [[]|(e & He & <- & _)].
    now apply H. }
  unfold getModelTokenValue. cbv zeta. rewrite Hpat, Hdef.
  destruct (get_plain out name Hproto Hname) as [-> | ->]; reflexivity.
Qed.

Lemma getModelMaxTokens_catalog_unknown_witness :
  let e := mkModel "m1" (mkPricing "0.000002" "0.000004") 8192%float in
  let input :=
    DObject [("data", DArray [DObject [
      ("id", DString "m1");
      ("pricing", DObject [("prompt", DString "0.000002");
                           ("completion", DString "0.000004")]);
      ("context_length", DNumber 8192%float)]])] in
  let table := fun _ : unit => Some (literal [("gpt-4", VNumber 8187%float)]) in
  inputSchema input = Some [e]
  /\ getModelMaxTokens table (Str "gpt-4") tt None = VNumber 8187%float
  /\ exists out,
       processModelData input = Return out
       /\ getModelMaxTokens table (Str "gpt-4") tt (Some out) = VUndefined.
Proof.
  intros e input table. do 2 (split; [reflexivity|]).
  assert (H : forall e0, In e0 [e] ->
            id e0 <> "gpt-4" /\ id e0 <> "__proto__"
            /\ id e0 <> "system_default"
            /\ ~ Substring (id e0) (toLowerCase "gpt-4")).
  { intros e0 [<-|[]]. repeat split; try discriminate.
    apply not_includes. reflexivity. }
  destruct (getModelMaxTokens_catalog_unknown input [e] "gpt-4" eq_refl H)
    as (out & Hout & Hu).
  exists out. split; [exact Hout | exact (Hu unit table tt)].
Defined.

(** X12.  On a catalog-derived config a name that is not an id but matches
    the id [p] as a pattern gets the context of [p] from [getModelMaxTokens]
    (also when that context is [0]), and [undefined] from
    [getModelMaxOutputTokens]: the records have no [output] field and the
    catalog has no [system_default].  (No entry may carry the id
    ["__proto__"] or ["system_default"].) *)
Theorem getModelMax_catalog_pattern
  (input : data) (models : list Model) (name : string) :
  inputSchema input = Some models ->
  (forall e, In e models ->
     id e <> name /\ id e <> "__proto__" /\ id e <> "system_default") ->
  exists out,
    processModelData input = Return out
    /\ forall p e,
         findMatchingPattern name out = Some p -> p <> "" ->
         last_entry p models = Some e ->
         forall (Endpoint : Type) (table : Endpoint -> option object)
                (endpoint : Endpoint),
           getModelMaxTokens table (Str name) endpoint (Some out)
           = VNumber (context_length e)
           /\ getModelMaxOutputTokens table (Str name) endpoint (Some out)
              = VUndefined.
Proof.
  intros Hin H. exists (fold_left step models empty).
  split; [now apply processModelData_valid|].
  intros p e Hp Hne He Endpoint table endpoint.
  unfold getModelMaxTokens, getModelMaxOutputTokens, nullish.
  set (out := fold_left step models empty) in *.
  assert (Hproto : proto out = None).
  { unfold out. rewrite fold_proto_unchanged; [reflexivity|].
    intros e' He'. now apply H. }
  assert (Hname : lookup name (own out) = None).
  { apply fold_lookup_none. intros e' He'. now apply H. }
  assert (Hdef : get out "system_default" = VUndefined).
  { apply get_system_default_absent. unfold has_own, out.
    rewrite fold_lookup_none; [reflexivity|]. intros e' He'. now apply H. }
  assert (Hrec : get out p = VConfig (record_of e)) by now apply fold_get.
  apply truthy_string_iff in Hne.
  unfold getModelTokenValue. cbv zeta. rewrite Hp, Hne, Hrec, Hdef.
  cbn [is_number value_field field]. rewrite context_record_of.
  assert (Hout : output (record_of e) = None).
  { unfold record_of. now destruct (id e =? "openrouter/auto"). }
  rewrite Hout. cbn [field_value is_number].
  destruct (get_plain out name Hproto Hname) as [-> | ->]; split; reflexivity.
Qed.

Lemma getModelMax_catalog_pattern_witness :
  let e := mkModel "m1" (mkPricing "0.000002" "0.000004") 8192%float in
  let input :=
    DObject [("data", DArray [DObject [
      ("id", DString "m1");
      ("pricing", DObject [("prompt", DString "0.000002");
                           ("completion", DString "0.000004")]);
      ("context_length", DNumber 8192%float)]])] in
  let table := fun _ : unit => @None object in
  inputSchema input = Some [e]
  /\ exists out,
       processModelData input = Return out
       /\ findMatchingPattern "M1-preview" out = Some "m1"
       /\ getModelMaxTokens table (Str "M1-preview") tt (Some out)
          = VNumber 8192%float
       /\ getModelMaxOutputTokens table (Str "M1-preview") tt (Some out)
          = VUndefined.
Proof.
  intros e input table. split; [reflexivity|].
  assert (H : forall e0, In e0 [e] ->
            id e0 <> "M1-preview" /\ id e0 <> "__proto__"
            /\ id e0 <> "system_default").
  { intros e0 [<-|[]]. repeat split; discriminate. }
  destruct (getModelMax_catalog_pattern input [e] "M1-preview" eq_refl H)
    as (out & Hout & Hp).
  exists out. split; [exact Hout|].
  assert (Hm : findMatchingPattern "M1-preview" out = Some "m1").
  { injection Hout as <-. reflexivity. }
  split; [exact Hm|].
  assert (Hne : "m1" <> "") by discriminate.
  exact (Hp "m1" e Hm Hne eq_refl unit table tt).
Defined.

(** X13.  An empty-string key that is the newest own key switches pattern
    matching off: the scan returns [""] for every name, which
    [getModelTokenValue] and [matchModelName] treat as no match, so every
    name without an exact hit gets [system_default], respectively itself. *)
Theorem empty_key_disables_patterns
  (ps : list (string * value)) (p : option TokenConfig) (v : value)
  (name : string) :
  let m := mkObject (ps ++ [("", v)]) p in
  findMatchingPattern name m = Some ""
  /\ (forall k,
        is_number (get m name) = false ->
        truthy (value_field (get m name) Kcontext) = false ->
        getModelTokenValue (Str name) (Some m) k = get m "system_default")
  /\ (forall (Endpoint : Type) (table : Endpoint -> option object)
             (endpoint : Endpoint),
        table endpoint = Some m ->
        matchModelName table (Str name) endpoint = Some name).
Proof.
  intros m.
  assert (Hp : findMatchingPattern name m = Some "").
  { rewrite findMatchingPattern_find. unfold m.
    rewrite Object_keys_snoc by reflexivity.
    rewrite rev_unit. cbn [find]. now rewrite includes_empty. }
  split; [exact Hp|]. split.
  - intros k Hn Hc. unfold getModelTokenValue. cbv zeta.
    now rewrite Hn, Hc, Hp.
  - intros Endpoint table endpoint Ht. unfold matchModelName.
    rewrite Ht, Hp. now destruct (truthy (get m name)).
Qed.

Lemma empty_key_disables_patterns_witness :
  let m := mkObject ([("gpt-4", VNumber 8187%float);
                      ("system_default", VNumber 4096%float)]
                     ++ [("", VNumber 1%float)]) None in
  let table := fun _ : unit => Some m in
  findMatchingPattern "gpt-4-0613" m = Some ""
  /\ getModelTokenValue (Str "gpt-4-0613") (Some m) Kcontext = VNumber 4096%float
  /\ matchModelName table (Str "gpt-4-0613") tt = Some "gpt-4-0613".
Proof.
  intros m table.
  destruct (empty_key_disables_patterns
              [("gpt-4", VNumber 8187%float);
               ("system_default", VNumber 4096%float)]
              None (VNumber 1%float) "gpt-4-0613") as (H1 & H2 & H3).
  split; [exact H1|]. split.
  - exact (H2 Kcontext eq_refl eq_refl).
  - exact (H3 unit table tt eq_refl).
Defined.
